(** * The data processing pipeline of [samples/data_processor.py]

    A shallow embedding of [DataRecord], the four processing steps, the
    per-record pipeline [_process_single_record], the batch coordinator
    [process_batch] and [get_statistics], followed by the properties the
    specification states about them.

    Modelling conventions.
    - Python numbers ([int] and [float]) are exact rationals [Q]; the
      binary64 rounding of [+], [-], [*], [/] is not modelled, and
      [round(x, 2)] is rounding to the nearest hundredth, ties to even.
    - A mutated object is a value threaded through the code: a step returns
      the new state of the record it was given.
    - A raised exception is the [Raise] branch of [result].
    - [asyncio]: every entry of a batch is a record object of its own, its
      task touches that record only, so the tasks are run one after the
      other; the deadline of [asyncio.wait_for] is an input of the model,
      the number of [await asyncio.sleep] a task gets through before the
      deadline fires.
    - [datetime.now()] is read from the environment.
    - The numbers the code stores as [float] are given in binary64 by
      [Binary64.normalize_value] and [Binary64.quality_score], on the
      primitive floats; the rational model agrees with them on bounds and
      order, NaN and the infinities exist only there. *)

From Stdlib Require Import QArith Qround Qabs Lia Lqa ZArith Floats.
From stdpp Require Import base gmap strings list pretty.

Local Open Scope string_scope.

(** ** Exceptions

    The three [raise ValueError(...)] of the file, by their message, and
    the error of a division by zero. *)
Inductive Exception :=
| ValueError_negative
| ValueError_out_of_range (v : Q)
| ValueError_missing_tags (missing : gset string)
| ZeroDivisionError.

Inductive result (A : Type) :=
| Ok (a : A)
| Raise (e : Exception).
Arguments Ok {A} a.
Arguments Raise {A} e.

(** ** Python numbers *)

Module PyNum.

(** [a < b] on numbers. *)
Definition Qlt_bool (x y : Q) : bool :=
  (Qnum x * QDen y <? Qnum y * QDen x)%Z.

(** Nearest integer, ties to the even one. *)
Definition round_half_even (x : Q) : Z :=
  let f := Qfloor x in
  match (2 * (Qnum x mod QDen x) ?= QDen x)%Z with
  | Lt => f
  | Gt => (f + 1)%Z
  | Eq => if Z.even f then f else (f + 1)%Z
  end.

(** [round(x, ndigits)] for [ndigits >= 0]. *)
Definition round (x : Q) (ndigits : nat) : Q :=
  let scale := Z.to_pos (10 ^ Z.of_nat ndigits) in
  round_half_even (x * inject_Z (Zpos scale)) # scale.

(** [min(a, b)] returns [b] when [b < a] and [a] otherwise. *)
Definition min (a b : Q) : Q := if Qlt_bool b a then b else a.

(** [max(a, b)] returns [b] when [b > a] and [a] otherwise. *)
Definition max (a b : Q) : Q := if Qlt_bool a b then b else a.

(** [a / b]: [ZeroDivisionError] on a zero divisor. *)
Definition div (a b : Q) : result Q :=
  if Qeq_bool b 0 then Raise ZeroDivisionError else Ok (a / b)%Q.

End PyNum.

(** The rescaling of [_normalize_value] in IEEE binary64, the arithmetic of
    a Python [float], to compare the rational model with at given inputs. *)
Module Binary64.

Definition rescale (v : float) : float :=
  (100 * (1 + (v - 100) / 900))%float.

(** [lo < x < hi] *)
Definition between (lo x hi : float) : bool :=
  (PrimFloat.ltb lo x && PrimFloat.ltb x hi)%bool.

(** The number a finite [float] of sign [s], mantissa [m] and exponent [e]
    stands for. *)
Definition exact (s : bool) (m : positive) (e : Z) : Q :=
  let a := if s then Zneg m else Zpos m in
  match e with
  | Zneg p => a # (2 ^ p)
  | _ => inject_Z (a * 2 ^ e)
  end.

(** The [float] nearest to [n / 100] (the binary64 division of [n] by 100);
    a zero takes the sign [s]. *)
Definition of_hundredths (s : bool) (n : Z) : float :=
  SF2Prim (SF64div (match n with
                    | Z0 => S754_zero s
                    | Zpos p => S754_finite false p 0
                    | Zneg p => S754_finite true p 0
                    end)
                   (S754_finite false 100 0)).

(** [round(x, 2)] on a [float]: the number [x] stands for is rounded to the
    nearest hundredth, ties to even, and the [float] nearest to that
    decimal is returned; zeros, infinities and NaN are returned as they
    are. *)
Definition round_2 (x : float) : float :=
  match Prim2SF x with
  | S754_finite s m e =>
    of_hundredths s (PyNum.round_half_even (exact s m e * 100))
  | _ => x
  end.

(** The value [_normalize_value] stores for a [float] value [v]. *)
Definition normalize_value (v : float) : float :=
  if PrimFloat.ltb 100 v then round_2 (rescale v) else v.

(** The quality score [_enrich_metadata] stores for a [float] value [v]:
    [min(100, v * 1.2)]; the literal [1.2] is the [float]
    [0x1.3333333333333p+0]. *)
Definition quality_score (v : float) : float :=
  let x := (v * 0x1.3333333333333p+0)%float in
  if PrimFloat.ltb x 100 then x else 100%float.

End Binary64.

(** ** Data model *)

Inductive Status := PENDING | PROCESSING | COMPLETED | FAILED.

(** The values the pipeline stores in [metadata] ([Dict[str, Any]]). *)
Inductive PyValue :=
| PyBool (b : bool)
| PyStr (s : string)
| PyNumber (x : Q).

Record DataRecord := {
  id : string;
  timestamp : Z;
  value : Q;
  metadata : gmap string PyValue;
  status : Status;
  tags : list string
}.

(** [__post_init__]: a negative value is refused, a missing timestamp is
    replaced by the current time. *)
Definition new_DataRecord (now : Z) (id : string) (timestamp : option Z)
    (value : Q) (metadata : gmap string PyValue) (tags : list string)
  : result DataRecord :=
  if PyNum.Qlt_bool value 0 then Raise ValueError_negative
  else Ok {| id := id;
             timestamp := match timestamp with Some t => t | None => now end;
             value := value; metadata := metadata; status := PENDING;
             tags := tags |}.

Definition set_value (record : DataRecord) (v : Q) : DataRecord :=
  {| id := id record; timestamp := timestamp record; value := v;
     metadata := metadata record; status := status record;
     tags := tags record |}.

Definition set_metadata (record : DataRecord) (m : gmap string PyValue)
  : DataRecord :=
  {| id := id record; timestamp := timestamp record; value := value record;
     metadata := m; status := status record; tags := tags record |}.

Definition set_status (record : DataRecord) (s : Status) : DataRecord :=
  {| id := id record; timestamp := timestamp record; value := value record;
     metadata := metadata record; status := s; tags := tags record |}.

Definition set_tags (record : DataRecord) (t : list string) : DataRecord :=
  {| id := id record; timestamp := timestamp record; value := value record;
     metadata := metadata record; status := status record; tags := t |}.

(** ** Configuration *)

Record ValidationRules := {
  min_value : Q;
  max_value : Q;
  required_tags : list string
}.

Record Config := {
  batch_size : Z;
  timeout : Q;
  validation_rules : ValidationRules;
  processing_steps : list string
}.

(** [default_config] of [_load_config]. *)
Definition default_config : Config :=
  {| batch_size := 100;
     timeout := 30;
     validation_rules :=
       {| min_value := 0; max_value := 1000;
          required_tags := ["source"; "type"] |};
     processing_steps := ["validate"; "normalize"; "categorize"; "enrich"] |}.

(** ** The processing steps *)

(** [_validate_record] *)
Definition _validate_record (config : Config) (record : DataRecord)
  : result DataRecord :=
  let rules := validation_rules config in
  if negb (Qle_bool (min_value rules) (value record)
           && Qle_bool (value record) (max_value rules))
  then Raise (ValueError_out_of_range (value record))
  else if negb (forallb (fun tag => bool_decide (tag ∈ tags record))
                        (required_tags rules))
  then Raise (ValueError_missing_tags
                (list_to_set (required_tags rules) ∖ list_to_set (tags record)))
  else Ok record.

(** [_normalize_value] *)
Definition _normalize_value (record : DataRecord) : result DataRecord :=
  let record :=
    if PyNum.Qlt_bool 100 (value record)
    then set_value record
           (PyNum.round (100 * (1 + (value record - 100) / 900)) 2)
    else record in
  Ok (set_metadata record (<["normalized" := PyBool true]> (metadata record))).

(** [_categorize_value] *)
Definition _categorize_value (record : DataRecord) : result DataRecord :=
  let category :=
    if PyNum.Qlt_bool (value record) 30 then "low"
    else if PyNum.Qlt_bool (value record) 70 then "medium"
    else "high" in
  let record :=
    set_metadata record (<["category" := PyStr category]> (metadata record)) in
  Ok (set_tags record (tags record ++ [String.append "category:" category])).

(** [_enrich_metadata]; [now] is [datetime.now().isoformat()]. *)
Definition _enrich_metadata (now : string) (record : DataRecord)
  : result DataRecord :=
  Ok (set_metadata record
        (<["quality_score" :=
             PyNumber (PyNum.min 100 (value record * (12 # 10)))]>
           (<["pipeline_version" := PyStr "2.1.0"]>
              (<["processing_time" := PyStr now]> (metadata record))))).

(** [self.processors]: the registry of [__init__]. A processor is a bound
    method; the clock it may read is its first argument here. *)
Definition processors (config : Config)
  : gmap string (string -> DataRecord -> result DataRecord) :=
  <["enrich" := _enrich_metadata]>
    (<["validate" := fun _ => _validate_record config]>
       (<["categorize" := fun _ => _categorize_value]>
          (<["normalize" := fun _ => _normalize_value]> ∅))).

(** The names of the registry. *)
Definition registry : list string :=
  ["validate"; "normalize"; "categorize"; "enrich"].

(** ** The pipeline of one record *)

(** What the environment gives one task: how many [await asyncio.sleep]
    it gets through before the deadline of the batch fires, and the time
    [datetime.now().isoformat()] reads after the [k]-th of them. *)
Record TaskEnv := {
  sleeps_before_deadline : nat;
  now_iso : nat -> string
}.

(** How a task ends; [record] is the state of its record object then. *)
Inductive TaskOutcome :=
| Returned (record : DataRecord)
| Raised (e : Exception) (record : DataRecord)
| Cancelled (record : DataRecord).

Definition task_record (o : TaskOutcome) : DataRecord :=
  match o with
  | Returned record | Raised _ record | Cancelled record => record
  end.

Definition is_cancelled (o : TaskOutcome) : bool :=
  match o with Cancelled _ => true | _ => false end.

Definition is_raised (o : TaskOutcome) : bool :=
  match o with Raised _ _ => true | _ => false end.

(** The [for step_name in self.config['processing_steps']] loop and the two
    statements after it, over the registry [procs]; [k] counts the sleeps
    the task has been through, [budget] those it still has before the
    deadline. *)
Fixpoint run_steps
    (procs : gmap string (string -> DataRecord -> result DataRecord))
    (clock : nat -> string) (budget k : nat) (steps : list string)
    (record : DataRecord) : TaskOutcome :=
  match steps with
  | [] => Returned (set_status record COMPLETED)
  | step_name :: steps' =>
    match procs !! step_name with
    | None => run_steps procs clock budget k steps' record
    | Some processor =>
      match budget with
      | O => Cancelled record
      | S budget' =>
        match processor (clock k) record with
        | Ok record' => run_steps procs clock budget' (S k) steps' record'
        | Raise e => Raised e record
        end
      end
    end
  end.

(** [_process_single_record] *)
Definition _process_single_record (config : Config) (env : TaskEnv)
    (record : DataRecord) : TaskOutcome :=
  run_steps (processors config) (now_iso env) (sleeps_before_deadline env) 0
    (processing_steps config) (set_status record PROCESSING).

(** ** The batch coordinator *)

Record Stats := {
  processed : Z;
  failed : Z;
  start_time : Q
}.

Record DataProcessor := {
  config : Config;
  _stats : Stats
}.

(** [DataProcessor()] with the default configuration, built at [now]. *)
Definition new_DataProcessor (now : Q) : DataProcessor :=
  {| config := default_config;
     _stats := {| processed := 0; failed := 0; start_time := now |} |}.

(** What a call of [process_batch] leaves behind: the list it returns, the
    records of the batch as the call left them, and the processor. *)
Record BatchResult := {
  returned : list DataRecord;
  records_after : list DataRecord;
  self_after : DataProcessor
}.

(** One turn of [for i, result in enumerate(results)]. *)
Definition handle_result (i : nat) (result : TaskOutcome) (st : BatchResult)
  : BatchResult :=
  if is_raised result
  then {| returned := returned st;
          records_after :=
            alter (fun record => set_status record FAILED) i (records_after st);
          self_after :=
            {| config := config (self_after st);
               _stats :=
                 {| processed := processed (_stats (self_after st));
                    failed := failed (_stats (self_after st)) + 1;
                    start_time := start_time (_stats (self_after st)) |} |} |}
  else {| returned := returned st ++ [task_record result];
          records_after := records_after st;
          self_after :=
            {| config := config (self_after st);
               _stats :=
                 {| processed := processed (_stats (self_after st)) + 1;
                    failed := failed (_stats (self_after st));
                    start_time := start_time (_stats (self_after st)) |} |} |}.

Fixpoint handle_results (i : nat) (results : list TaskOutcome)
    (st : BatchResult) : BatchResult :=
  match results with
  | [] => st
  | result :: results' =>
    handle_results (S i) results' (handle_result i result st)
  end.

(** The results [asyncio.gather] collects for the tasks of a batch; [env i]
    is the environment of the task of [records[i]]. *)
Definition gather (env : nat -> TaskEnv) (self : DataProcessor)
    (records : list DataRecord) : list TaskOutcome :=
  imap (fun i record => _process_single_record (config self) (env i) record)
       records.

(** [process_batch]. [asyncio.wait_for] raises [TimeoutError] when a task
    is still suspended at the deadline. *)
Definition process_batch (env : nat -> TaskEnv) (self : DataProcessor)
    (records : list DataRecord) : BatchResult :=
  let results := gather env self records in
  let records := task_record <$> results in
  if existsb is_cancelled results
  then {| returned := []; records_after := records; self_after := self |}
  else handle_results 0 results
         {| returned := []; records_after := records; self_after := self |}.

(** ** Statistics *)

Record Statistics := {
  stats : Stats;
  runtime_seconds : Q;
  records_per_second : Q;
  success_rate : Q
}.

Definition records_per_second_denominator (runtime_seconds : Q) : Q :=
  PyNum.max runtime_seconds 1.

Definition success_rate_denominator (s : Stats) : Q :=
  PyNum.max (inject_Z (processed s + failed s)) 1.

(** [get_statistics]; [now] is [datetime.now()], in seconds. *)
Definition get_statistics (now : Q) (self : DataProcessor)
  : result Statistics :=
  let runtime := (now - start_time (_stats self))%Q in
  match PyNum.div (inject_Z (processed (_stats self)))
                  (records_per_second_denominator runtime) with
  | Raise e => Raise e
  | Ok rps =>
    match PyNum.div (inject_Z (processed (_stats self)))
                    (success_rate_denominator (_stats self)) with
    | Raise e => Raise e
    | Ok rate =>
      Ok {| stats := _stats self; runtime_seconds := runtime;
            records_per_second := rps; success_rate := rate |}
    end
  end.

(** ** Sample data *)

Module Samples.

Definition sample (v : Q) (tags : list string) : DataRecord :=
  {| id := "record_0001"; timestamp := 0; value := v; metadata := ∅;
     status := PENDING; tags := tags |}.

Definition env_all : nat -> TaskEnv :=
  fun _ => {| sleeps_before_deadline := 4;
              now_iso := fun _ => "2024-01-01T00:00:00" |}.

End Samples.

(** ** The entry point *)

(** [f"{i:04d}"]: the decimal digits of [i], padded with zeros on the left
    to four characters. *)
Fixpoint zeros (n : nat) : string :=
  match n with
  | O => EmptyString
  | S n' => "0" +:+ zeros n'
  end.

Definition format_04d (i : nat) : string :=
  zeros (4 - String.length (pretty i)) +:+ pretty i.

(** A list comprehension whose elements may raise: the first exception
    leaves it. *)
Fixpoint comprehension {A : Type} (l : list (result A)) : result (list A) :=
  match l with
  | [] => Ok []
  | Ok a :: l' =>
    match comprehension l' with
    | Ok r => Ok (a :: r)
    | Raise e => Raise e
    end
  | Raise e :: _ => Raise e
  end.

(** [range(0, stop, step)] for [stop >= 0], as indices; [None] is the
    [ValueError] of a zero step. *)
Definition range_step (stop step : Z) : option (list nat) :=
  if (step =? 0)%Z then None
  else if (step <? 0)%Z then Some []
  else Some ((fun j => (j * Z.to_nat step)%nat)
               <$> seq 0 (Z.to_nat ((stop + step - 1) / step))).

(** The batches of the loop of [main]:
    [records[i:i + batch_size] for i in range(0, len(records), batch_size)]. *)
Definition batches_of (records : list DataRecord) (batch_size : Z)
  : option (list (list DataRecord)) :=
  match range_step (Z.of_nat (length records)) batch_size with
  | None => None
  | Some starts =>
    Some ((fun i => take (Z.to_nat batch_size) (drop i records)) <$> starts)
  end.

(** What [main] reads from its environment: [hash(f"sample_{i}")], the
    time [datetime.now()] gives when record [i] is built (in microseconds),
    the time at which the processor is built and the time at which the
    statistics are taken (in seconds), and the environment of each task of
    each batch. *)
Record MainEnv := {
  py_hash : nat -> Z;
  created_at : nat -> Z;
  processor_built_at : Q;
  statistics_taken_at : Q;
  task_env : nat -> nat -> TaskEnv
}.

(** The [i]-th element of [sample_records]. *)
Definition sample_record (env : MainEnv) (i : nat) : result DataRecord :=
  new_DataRecord (created_at env i) ("record_" +:+ format_04d i)
    (Some (created_at env i - Z.of_nat i * 3600000000)%Z)
    (inject_Z (Z.abs (py_hash env i) mod 200 + 10))
    {["source_id" := PyStr ("sensor_" +:+ pretty (i mod 10)%nat)]}
    ["source:api"; "type:sensor"].

Definition sample_records (env : MainEnv) : result (list DataRecord) :=
  comprehension (sample_record env <$> seq 0 50).

(** The loop over the batches: [b] is the number of the batch. *)
Fixpoint run_batches (env : nat -> nat -> TaskEnv) (b : nat)
    (batches : list (list DataRecord)) (processor : DataProcessor)
    (all_results : list DataRecord) : DataProcessor * list DataRecord :=
  match batches with
  | [] => (processor, all_results)
  | batch :: batches' =>
    let after := process_batch (env b) processor batch in
    run_batches env (S b) batches' (self_after after)
      (all_results ++ returned after)
  end.

(** What [main] has computed when it displays the statistics:
    [processor.records], the processor and [stats]. *)
Record MainResult := {
  main_records : list DataRecord;
  main_processor : DataProcessor;
  main_stats : Statistics
}.

(** [main], up to the display of the statistics; the export to a file that
    follows is not part of the model. [None]: an exception left [main]. *)
Definition main (env : MainEnv) : option MainResult :=
  let processor := new_DataProcessor (processor_built_at env) in
  match sample_records env with
  | Raise _ => None
  | Ok sample_records =>
    match batches_of sample_records (batch_size (config processor)) with
    | None => None
    | Some batches =>
      let '(processor, all_results) :=
        run_batches (task_env env) 0 batches processor [] in
      match get_statistics (statistics_taken_at env) processor with
      | Raise _ => None
      | Ok stats =>
        Some {| main_records := all_results; main_processor := processor;
                main_stats := stats |}
      end
    end
  end.

(** * Specification vocabulary

    The notions the properties are stated with. *)

(** ** Validation rules *)

(** The two validation rules, as propositions. *)
Definition in_range (rules : ValidationRules) (record : DataRecord) : Prop :=
  (min_value rules <= value record)%Q /\ (value record <= max_value rules)%Q.

Definition has_required_tags (rules : ValidationRules) (record : DataRecord)
  : Prop :=
  forall tag, tag ∈ required_tags rules -> tag ∈ tags record.

Definition satisfies_rules (rules : ValidationRules) (record : DataRecord)
  : Prop :=
  in_range rules record /\ has_required_tags rules record.

(** ** Pipelines *)

(** The configuration with another list of steps. *)
Definition with_processing_steps (config : Config) (steps : list string)
  : Config :=
  {| batch_size := batch_size config; timeout := timeout config;
     validation_rules := validation_rules config;
     processing_steps := steps |}.

(** The task ran its pipeline to the end. *)
Definition is_returned (o : TaskOutcome) : bool :=
  match o with Returned _ => true | _ => false end.

(** The number of [await asyncio.sleep] a pipeline goes through when no
    step raises: one for each step name of the registry. *)
Fixpoint sleeps_needed (steps : list string) : nat :=
  match steps with
  | [] => 0
  | name :: steps' =>
    if bool_decide (name ∈ registry) then S (sleeps_needed steps')
    else sleeps_needed steps'
  end.

(** No ["validate"] comes after a ["normalize"] in the list of steps. *)
Fixpoint validate_before_normalize (steps : list string) : Prop :=
  match steps with
  | [] => True
  | name :: steps' =>
    (name = "normalize" -> "validate" ∉ steps')
    /\ validate_before_normalize steps'
  end.

(** The category [_categorize_value] gives a value. *)
Definition category_of (v : Q) : string :=
  if PyNum.Qlt_bool v 30 then "low"
  else if PyNum.Qlt_bool v 70 then "medium"
  else "high".

Global Instance Status_eq_dec : EqDecision Status.
Proof. solve_decision. Defined.

(** ** Batches *)

(** The batch does not finish before the deadline: some task is still
    suspended when it fires. *)
Definition times_out (env : nat -> TaskEnv) (self : DataProcessor)
    (records : list DataRecord) : Prop :=
  exists i record,
    records !! i = Some record
    /\ is_cancelled (_process_single_record (config self) (env i) record)
       = true.

Definition finishes_before_deadline (env : nat -> TaskEnv)
    (self : DataProcessor) (records : list DataRecord) : Prop :=
  forall i record,
    records !! i = Some record ->
    is_cancelled (_process_single_record (config self) (env i) record)
    = false.

(** The record of a task after the loop over the results. *)
Definition final_record (o : TaskOutcome) : DataRecord :=
  match o with
  | Raised _ record => set_status record FAILED
  | _ => task_record o
  end.

(** The record a result contributes to the returned list. *)
Definition returned_record (o : TaskOutcome) : option DataRecord :=
  if is_raised o then None else Some (task_record o).

Definition count (p : TaskOutcome -> bool) (results : list TaskOutcome) : Z :=
  Z.of_nat (length (List.filter p results)).

Definition add_counts (self : DataProcessor) (done lost : Z) : DataProcessor :=
  {| config := config self;
     _stats := {| processed := processed (_stats self) + done;
                  failed := failed (_stats self) + lost;
                  start_time := start_time (_stats self) |} |}.

(** * Properties *)

(** ** Numbers *)

Lemma Qlt_bool_iff (x y : Q) : PyNum.Qlt_bool x y = true <-> (x < y)%Q.
Proof. unfold PyNum.Qlt_bool, Qlt. apply Z.ltb_lt. Qed.

Lemma Qlt_bool_false_iff (x y : Q) : PyNum.Qlt_bool x y = false <-> (y <= x)%Q.
Proof. unfold PyNum.Qlt_bool, Qle. apply Z.ltb_ge. Qed.

Lemma Qlt_bool_reflect (x y : Q) :
  reflect (x < y)%Q (PyNum.Qlt_bool x y).
Proof.
  destruct (PyNum.Qlt_bool x y) eqn:E; constructor.
  - by apply Qlt_bool_iff.
  - apply Qlt_bool_false_iff in E. by apply Qle_not_lt.
Qed.

Section Rounding.
Local Open Scope Z_scope.

Lemma round_half_even_cases (x : Q) :
  PyNum.round_half_even x = Qfloor x
  \/ (PyNum.round_half_even x = Qfloor x + 1 /\ 0 < Qnum x mod QDen x).
Proof.
  unfold PyNum.round_half_even.
  destruct (Z.compare_spec (2 * (Qnum x mod QDen x)) (QDen x)) as [E|E|E].
  - destruct (Z.even (Qfloor x)); [by left | right; split; [done | lia]].
  - by left.
  - right; split; [done | lia].
Qed.

Lemma Qfloor_div (x : Q) : Qfloor x = Qnum x / QDen x.
Proof. by destruct x. Qed.

Lemma round_half_even_ge (n : Z) (x : Q) :
  (inject_Z n <= x)%Q -> n <= PyNum.round_half_even x.
Proof.
  intros H. apply Qfloor_resp_le in H. rewrite Qfloor_Z in H.
  destruct (round_half_even_cases x) as [-> | [-> _]]; lia.
Qed.

Lemma round_half_even_le (n : Z) (x : Q) :
  (x <= inject_Z n)%Q -> PyNum.round_half_even x <= n.
Proof.
  intros H.
  destruct (round_half_even_cases x) as [-> | [-> Hrem]].
  - apply Qfloor_resp_le in H. by rewrite Qfloor_Z in H.
  - rewrite Qfloor_div. unfold Qle in H. simpl in H.
    pose proof (Z.div_mod (Qnum x) (QDen x) ltac:(done)) as Hdm.
    pose proof (Z.mod_pos_bound (Qnum x) (QDen x) ltac:(done)) as Hb.
    assert (QDen x * (Qnum x / QDen x) < QDen x * n) by lia.
    assert (Qnum x / QDen x < n); [|lia].
    apply Z.mul_lt_mono_pos_l with (p := QDen x); [done | lia].
Qed.

(** The result is a nearest integer: it is at most one half away. *)
Lemma round_half_even_nearest (x : Q) :
  (Qabs (inject_Z (PyNum.round_half_even x) - x) <= 1 # 2)%Q.
Proof.
  apply Qabs_Qle_condition.
  destruct x as [a b]. unfold PyNum.round_half_even, Qfloor. simpl Qnum.
  change (QDen (a # b)) with (Z.pos b).
  pose proof (Z.div_mod a (Z.pos b) ltac:(done)) as Hdm.
  pose proof (Z.mod_pos_bound a (Z.pos b) ltac:(done)) as Hb.
  assert (Hc : forall k : Z,
    (- (Z.pos b) <= 2 * Z.pos b * k - 2 * a <= Z.pos b) ->
    (- (1 # 2) <= inject_Z k - (a # b) <= 1 # 2)%Q).
  { intros k Hk. unfold Qle, Qminus, Qplus, Qopp, inject_Z. simpl.
    rewrite <- ?Pos2Z.opp_pos. lia. }
  apply Hc.
  destruct (Z.compare_spec (2 * (a mod Z.pos b)) (Z.pos b)) as [E|E|E].
  - destruct (Z.even (a / Z.pos b)); lia.
  - lia.
  - lia.
Qed.

End Rounding.

(** [round(x, 2)] is a number of hundredths, at most 0.005 away from [x]. *)
Lemma round_2_hundredths (x : Q) :
  PyNum.round x 2 = PyNum.round_half_even (x * 100) # 100.
Proof. reflexivity. Qed.

Lemma round_2_nearest (x : Q) :
  (Qabs (PyNum.round x 2 - x) <= 5 # 1000)%Q.
Proof.
  rewrite round_2_hundredths.
  pose proof (round_half_even_nearest (x * 100)) as H.
  apply Qabs_Qle_condition in H. apply Qabs_Qle_condition.
  set (n := PyNum.round_half_even (x * 100)) in *.
  assert (E : (n # 100 == inject_Z n * (1 # 100))%Q).
  { unfold Qeq, Qmult, inject_Z. simpl. lia. }
  rewrite E. split; lra.
Qed.

Lemma round_2_ge (n : Z) (x : Q) :
  (inject_Z n <= x)%Q -> (inject_Z n <= PyNum.round x 2)%Q.
Proof.
  intros H. rewrite round_2_hundredths.
  assert (H' : (inject_Z (n * 100) <= x * 100)%Q).
  { rewrite inject_Z_mult. change (inject_Z 100) with 100%Q. lra. }
  apply round_half_even_ge in H'.
  unfold Qle, inject_Z. simpl. lia.
Qed.

Lemma round_2_le (n : Z) (x : Q) :
  (x <= inject_Z n)%Q -> (PyNum.round x 2 <= inject_Z n)%Q.
Proof.
  intros H. rewrite round_2_hundredths.
  assert (H' : (x * 100 <= inject_Z (n * 100))%Q).
  { rewrite inject_Z_mult. change (inject_Z 100) with 100%Q. lra. }
  apply round_half_even_le in H'.
  unfold Qle, inject_Z. simpl. lia.
Qed.

(** ** The steps *)

Lemma in_range_bool (rules : ValidationRules) (record : DataRecord) :
  Qle_bool (min_value rules) (value record)
  && Qle_bool (value record) (max_value rules) = true
  <-> in_range rules record.
Proof.
  unfold in_range. rewrite andb_true_iff, !Qle_bool_iff. tauto.
Qed.

Lemma has_required_tags_bool (rules : ValidationRules) (record : DataRecord) :
  forallb (fun tag => bool_decide (tag ∈ tags record)) (required_tags rules)
  = true
  <-> has_required_tags rules record.
Proof.
  unfold has_required_tags. rewrite forallb_forall. split.
  - intros H tag Hin. apply list_elem_of_In, H in Hin.
    by apply bool_decide_eq_true in Hin.
  - intros H tag Hin. apply bool_decide_eq_true, H. by apply list_elem_of_In.
Qed.

Lemma validate_record_ok (config : Config) (record : DataRecord) :
  satisfies_rules (validation_rules config) record ->
  _validate_record config record = Ok record.
Proof.
  intros [Hr Ht]. unfold _validate_record.
  apply in_range_bool in Hr. apply has_required_tags_bool in Ht.
  by rewrite Hr, Ht.
Qed.

Lemma validate_record_inv (config : Config) (record record' : DataRecord) :
  _validate_record config record = Ok record' ->
  record' = record /\ satisfies_rules (validation_rules config) record.
Proof.
  unfold _validate_record, satisfies_rules.
  rewrite <- in_range_bool, <- has_required_tags_bool.
  destruct (Qle_bool _ _ && Qle_bool _ _); [|done].
  destruct (forallb _ _); [|done].
  simpl. intros [= <-]. done.
Qed.

(** C4: [_validate_record] raises exactly when the value is outside
    [[min_value, max_value]] or a required tag is missing from the tags of
    the record; otherwise it returns the record as it was given. *)
Theorem validate_record_raises_iff (config : Config) (record : DataRecord) :
  ((exists e, _validate_record config record = Raise e)
   <-> (~ in_range (validation_rules config) record
        \/ ~ has_required_tags (validation_rules config) record))
  /\ ((in_range (validation_rules config) record
       /\ has_required_tags (validation_rules config) record)
      <-> _validate_record config record = Ok record).
Proof.
  split; split.
  - intros [e He].
    destruct (Qle_bool (min_value (validation_rules config)) (value record)
              && Qle_bool (value record) (max_value (validation_rules config)))
      eqn:Hr.
    + right. intros Ht.
      rewrite validate_record_ok in He; [done |].
      split; [by apply in_range_bool | done].
    + left. intros Hin. apply in_range_bool in Hin. congruence.
  - intros H. unfold _validate_record.
    destruct (Qle_bool _ _ && Qle_bool _ _) eqn:Hr; simpl; [|by eexists].
    destruct (forallb _ _) eqn:Ht; simpl; [|by eexists].
    apply in_range_bool in Hr. apply has_required_tags_bool in Ht. tauto.
  - apply validate_record_ok.
  - intros H. by apply validate_record_inv in H as [_ ?].
Qed.

(** The step on exact rationals: [_normalize_value] replaces a value
    [v > 100] by the rational [100 * (1 + (v - 100) / 900)] rounded to
    hundredths, keeps a value [v <= 100], sets [metadata["normalized"]],
    never raises and touches nothing else of the record. *)
Theorem normalize_value_spec (record : DataRecord) :
  exists record',
    _normalize_value record = Ok record'
    /\ ((100 < value record)%Q ->
        value record'
        = PyNum.round (100 * (1 + (value record - 100) / 900)) 2)
    /\ ((value record <= 100)%Q -> value record' = value record)
    /\ metadata record' !! "normalized" = Some (PyBool true)
    /\ (forall key, key ≠ "normalized" ->
          metadata record' !! key = metadata record !! key)
    /\ id record' = id record /\ timestamp record' = timestamp record
    /\ status record' = status record /\ tags record' = tags record.
Proof.
  unfold _normalize_value. eexists. split; [reflexivity |].
  destruct (Qlt_bool_reflect 100 (value record)) as [H | H]; simpl.
  - repeat split; try done.
    + intros H'. by apply Qle_not_lt in H'.
    + apply lookup_insert_eq.
    + intros key Hk. by apply lookup_insert_ne.
  - repeat split; try done.
    + apply lookup_insert_eq.
    + intros key Hk. by apply lookup_insert_ne.
Qed.

(** The rescaling before rounding keeps a value above 100 above 100. *)
Lemma rescale_range_lower (v : Q) :
  (100 < v)%Q -> (100 < 100 * (1 + (v - 100) / 900))%Q.
Proof.
  intros Hlo. unfold Qdiv. change (/ 900)%Q with (1 # 900)%Q. lra.
Qed.

(** The rescaling before rounding maps (100, 1000] into (100, 200]. *)
Lemma rescale_range (v : Q) :
  (100 < v)%Q -> (v <= 1000)%Q ->
  (100 < 100 * (1 + (v - 100) / 900))%Q
  /\ (100 * (1 + (v - 100) / 900) <= 200)%Q.
Proof.
  intros Hlo Hhi. unfold Qdiv. change (/ 900)%Q with (1 # 900)%Q.
  split; lra.
Qed.

(** C6, as the code has it: for a value in (100, 1000] the value
    [_normalize_value] stores lies in [[100, 200]]; the lower end 100 is
    reached, because of the rounding to two decimals. *)
Theorem normalize_value_range (record record' : DataRecord) :
  (100 < value record)%Q -> (value record <= 1000)%Q ->
  _normalize_value record = Ok record' ->
  (100 <= value record')%Q /\ (value record' <= 200)%Q.
Proof.
  intros Hlo Hhi. unfold _normalize_value.
  apply Qlt_bool_iff in Hlo as Hb. rewrite Hb. intros [= <-]. simpl.
  destruct (rescale_range _ Hlo Hhi) as [H1 H2]. split.
  - apply (round_2_ge 100). by apply Qlt_le_weak.
  - by apply (round_2_le 200).
Qed.

Lemma normalize_value_range_witness :
  (100 <= 20000 # 100)%Q /\ (20000 # 100 <= 200)%Q.
Proof.
  apply (normalize_value_range
           {| id := "r"; timestamp := 0; value := 1000; metadata := ∅;
              status := PROCESSING; tags := [] |}
           {| id := "r"; timestamp := 0; value := 20000 # 100;
              metadata := <["normalized" := PyBool true]> ∅;
              status := PROCESSING; tags := [] |}).
  - reflexivity.
  - discriminate.
  - reflexivity.
Defined.

(** The same in binary64: the [float] 100.03125 is rescaled to a number
    strictly between 100 and 100.00390625, which [round(x, 2)] takes to
    100.0. *)
Example rescale_just_above_100_binary64 :
  Binary64.between 100 (Binary64.rescale 100.03125) 100.00390625 = true.
Proof. vm_compute. reflexivity. Qed.

(** C6 as stated fails: 100.03125 lies in (100, 1000] and is normalized to
    100.00, which is not in (100, 200]. *)
Lemma normalize_value_range_counterexample :
  let record :=
    {| id := "r"; timestamp := 0; value := 3201 # 32; metadata := ∅;
       status := PROCESSING; tags := [] |} in
  (100 < value record)%Q /\ (value record <= 1000)%Q
  /\ exists record',
       _normalize_value record = Ok record'
       /\ (value record' == 100)%Q
       /\ ~ ((100 < value record')%Q /\ (value record' <= 200)%Q).
Proof.
  simpl. split; [reflexivity |]. split; [discriminate |].
  eexists. split; [reflexivity |]. simpl. split; [reflexivity |].
  intros [H _]. revert H. vm_compute. discriminate.
Qed.

(** C7: for a record with a value [v >= 0], [_categorize_value] assigns
    exactly one of the categories low ([v < 30]), medium ([30 <= v < 70])
    and high ([v >= 70]), stores its name under [metadata["category"]] and
    appends the tag ["category:<name>"] to the tags. *)
Theorem categorize_value_partition (record : DataRecord) :
  (0 <= value record)%Q ->
  exists category record',
    _categorize_value record = Ok record'
    /\ category ∈ ["low"; "medium"; "high"]
    /\ (category = "low" <-> (value record < 30)%Q)
    /\ (category = "medium"
        <-> (30 <= value record)%Q /\ (value record < 70)%Q)
    /\ (category = "high" <-> (70 <= value record)%Q)
    /\ metadata record' !! "category" = Some (PyStr category)
    /\ tags record' = (tags record ++ ["category:" +:+ category])%list
    /\ value record' = value record.
Proof.
  intros _. unfold _categorize_value.
  destruct (Qlt_bool_reflect (value record) 30) as [H30 | H30];
    [exists "low"
    | destruct (Qlt_bool_reflect (value record) 70) as [H70 | H70];
      [exists "medium" | exists "high"]];
    eexists; (split; [reflexivity |]); simpl;
    (split; [set_solver |]);
    try apply Qnot_lt_le in H30; try apply Qnot_lt_le in H70;
    (repeat split; try done; try lra; try (intros; lra));
    try apply lookup_insert_eq.
Qed.

Lemma categorize_value_partition_witness :
  exists category record',
    _categorize_value
      {| id := "r"; timestamp := 0; value := 45; metadata := ∅;
         status := PROCESSING; tags := ["source"] |} = Ok record'
    /\ category = "medium"
    /\ tags record' = ["source"; "category:medium"].
Proof.
  destruct (categorize_value_partition
              {| id := "r"; timestamp := 0; value := 45; metadata := ∅;
                 status := PROCESSING; tags := ["source"] |})
    as (category & record' & Hrun & _ & _ & Hmed & _ & _ & Htags & _).
  - discriminate.
  - exists category, record'. split; [exact Hrun |].
    assert (category = "medium") as ->.
    { apply Hmed. split; [discriminate | reflexivity]. }
    split; [reflexivity | exact Htags].
Defined.

(** ** The registry *)

Lemma processors_lookup_None (config : Config) (name : string) :
  name ∉ registry -> processors config !! name = None.
Proof.
  unfold registry, processors. rewrite !not_elem_of_cons.
  intros (Hv & Hn & Hc & He & _).
  by rewrite !lookup_insert_ne, lookup_empty.
Qed.

Lemma processors_lookup_Some (config : Config) (name : string)
    (processor : string -> DataRecord -> result DataRecord) :
  processors config !! name = Some processor ->
  (name = "validate" /\ processor = fun _ => _validate_record config)
  \/ (name = "normalize" /\ processor = fun _ => _normalize_value)
  \/ (name = "categorize" /\ processor = fun _ => _categorize_value)
  \/ (name = "enrich" /\ processor = _enrich_metadata).
Proof.
  unfold processors. intros H.
  apply lookup_insert_Some in H as [[<- <-] | [_ H]]; [tauto |].
  apply lookup_insert_Some in H as [[<- <-] | [_ H]]; [tauto |].
  apply lookup_insert_Some in H as [[<- <-] | [_ H]]; [tauto |].
  apply lookup_insert_Some in H as [[<- <-] | [_ H]]; [tauto |].
  by rewrite lookup_empty in H.
Qed.

Lemma processors_registry (config : Config) (name : string) :
  is_Some (processors config !! name) <-> name ∈ registry.
Proof.
  split.
  - intros [processor H].
    apply processors_lookup_Some in H as [[-> _] | [[-> _] | [[-> _] | [-> _]]]];
      unfold registry; set_solver.
  - intros H. destruct (processors config !! name) eqn:E; [by eexists |].
    exfalso. unfold registry in H.
    rewrite !elem_of_cons in H.
    destruct H as [-> | [-> | [-> | [-> | H]]]];
      [by vm_compute in E .. | by apply elem_of_nil in H].
Qed.

(** ** The pipeline of one record *)

Section RunSteps.
Variable procs : gmap string (string -> DataRecord -> result DataRecord).
Variable clock : nat -> string.

Lemma run_steps_skip (name : string) (steps : list string)
    (budget k : nat) (record : DataRecord) :
  procs !! name = None ->
  run_steps procs clock budget k (name :: steps) record
  = run_steps procs clock budget k steps record.
Proof. intros H. simpl. by rewrite H. Qed.

Lemma run_steps_skip_middle (name : string) (pre post : list string) :
  procs !! name = None ->
  forall (budget k : nat) (record : DataRecord),
    run_steps procs clock budget k (pre ++ name :: post) record
    = run_steps procs clock budget k (pre ++ post) record.
Proof.
  intros H. induction pre as [| step pre IH]; intros budget k record.
  - by apply run_steps_skip.
  - simpl. destruct (procs !! step) as [processor |]; [| by apply IH].
    destruct budget as [| budget]; [done |].
    destruct (processor (clock k) record); [by apply IH | done].
Qed.

End RunSteps.

(** C9: a step name outside the registry is skipped. It resolves to no
    processor, the turn of the loop on it leaves the task as it was (same
    record, same deadline budget, no error), and the pipeline gives the
    same outcome as the pipeline without that name. *)
Theorem unknown_step_skipped (config : Config) (env : TaskEnv)
    (record : DataRecord) (pre post : list string) (name : string) :
  name ∉ registry ->
  processing_steps config = (pre ++ name :: post)%list ->
  processors config !! name = None
  /\ (forall clock budget k r,
        run_steps (processors config) clock budget k (name :: post) r
        = run_steps (processors config) clock budget k post r)
  /\ _process_single_record config env record
     = _process_single_record
         (with_processing_steps config (pre ++ post)) env record.
Proof.
  intros Hname Hsteps.
  pose proof (processors_lookup_None config name Hname) as Hnone.
  split; [done |]. split.
  - intros clock budget k r. by apply run_steps_skip.
  - unfold _process_single_record. rewrite Hsteps. simpl.
    change (processors (with_processing_steps config (pre ++ post)))
      with (processors config).
    by apply run_steps_skip_middle.
Qed.

Lemma unknown_step_skipped_witness :
  let config :=
    with_processing_steps default_config ["validate"; "validat"; "normalize"] in
  _process_single_record config (Samples.env_all 0)
    (Samples.sample 500 ["source"; "type"])
  = _process_single_record
      (with_processing_steps config ["validate"; "normalize"])
      (Samples.env_all 0) (Samples.sample 500 ["source"; "type"]).
Proof.
  intros config.
  apply (unknown_step_skipped config (Samples.env_all 0)
           (Samples.sample 500 ["source"; "type"])
           ["validate"] ["normalize"] "validat").
  - unfold registry. rewrite !not_elem_of_cons.
    repeat split; [discriminate .. | apply not_elem_of_nil].
  - reflexivity.
Defined.

Lemma run_steps_returned_status
    (procs : gmap string (string -> DataRecord -> result DataRecord))
    (clock : nat -> string) (steps : list string) :
  forall (budget k : nat) (record record' : DataRecord),
    run_steps procs clock budget k steps record = Returned record' ->
    status record' = COMPLETED.
Proof.
  induction steps as [| name steps IH]; intros budget k record record'; simpl.
  - by intros [= <-].
  - destruct (procs !! name) as [processor |]; [| by apply IH].
    destruct budget as [| budget]; [done |].
    destruct (processor (clock k) record); [by apply IH | done].
Qed.

(** ** The batch coordinator *)

Lemma add_counts_0 (self : DataProcessor) : add_counts self 0 0 = self.
Proof.
  destruct self as [c [p f t]]. unfold add_counts. simpl.
  by rewrite !Z.add_0_r.
Qed.

Lemma add_counts_add (self : DataProcessor) (a b c d : Z) :
  add_counts (add_counts self a b) c d
  = add_counts self (a + c)%Z (b + d)%Z.
Proof. unfold add_counts. simpl. by rewrite !Z.add_assoc. Qed.

Lemma count_cons (p : TaskOutcome -> bool) (o : TaskOutcome)
    (results : list TaskOutcome) :
  count p (o :: results) = ((if p o then 1 else 0) + count p results)%Z.
Proof. unfold count. simpl. destruct (p o); simpl length; lia. Qed.

Lemma handle_result_at (done rest out : list DataRecord)
    (result : TaskOutcome) (self : DataProcessor) :
  handle_result (length done) result
    {| returned := out;
       records_after := done ++ task_record result :: rest;
       self_after := self |}
  = {| returned := out ++ option_list (returned_record result);
       records_after := (done ++ [final_record result]) ++ rest;
       self_after :=
         add_counts self (if negb (is_raised result) then 1 else 0)%Z
                    (if is_raised result then 1 else 0)%Z |}.
Proof.
  unfold handle_result, returned_record, add_counts.
  destruct result as [record | e record | record]; cbn -[Z.add].
  - by rewrite <- app_assoc, Z.add_0_r.
  - rewrite alter_app_r_alt by lia. rewrite Nat.sub_diag. cbn -[Z.add].
    by rewrite <- app_assoc, app_nil_r, Z.add_0_r.
  - by rewrite <- app_assoc, Z.add_0_r.
Qed.

Lemma handle_results_spec (results : list TaskOutcome) :
  forall (done out : list DataRecord) (self : DataProcessor),
    handle_results (length done) results
      {| returned := out;
         records_after := done ++ (task_record <$> results);
         self_after := self |}
    = {| returned := out ++ omap returned_record results;
         records_after := done ++ (final_record <$> results);
         self_after :=
           add_counts self (count (fun o => negb (is_raised o)) results)
                      (count is_raised results) |}.
Proof.
  induction results as [| result results IH]; intros done out self.
  - cbn. rewrite add_counts_0. by rewrite !app_nil_r.
  - rewrite fmap_cons. cbn [handle_results]. rewrite handle_result_at.
    replace (S (length done)) with (length (done ++ [final_record result]))
      by (rewrite length_app; simpl; lia).
    rewrite IH, add_counts_add. f_equal.
    + rewrite <- app_assoc. f_equal. unfold returned_record.
      by destruct result.
    + by rewrite <- app_assoc.
    + by rewrite !count_cons.
Qed.

Lemma times_out_gather env self (records : list DataRecord) :
  times_out env self records
  <-> existsb is_cancelled (gather env self records) = true.
Proof.
  unfold times_out, gather. rewrite existsb_exists. split.
  - intros (i & record & Hi & Hc). eexists. split; [| exact Hc].
    apply list_elem_of_In, list_elem_of_lookup. exists i.
    by rewrite list_lookup_imap, Hi.
  - intros (o & Hin & Hc).
    apply list_elem_of_In, list_elem_of_lookup in Hin as [i Hi].
    rewrite list_lookup_imap in Hi.
    destruct (records !! i) as [record |] eqn:E; [| done].
    simpl in Hi. injection Hi as <-. by exists i, record.
Qed.

Lemma finishes_gather env self (records : list DataRecord) :
  finishes_before_deadline env self records
  <-> existsb is_cancelled (gather env self records) = false.
Proof.
  split.
  - intros H. destruct (existsb _ _) eqn:E; [| done].
    apply times_out_gather in E as (i & record & Hi & Hc).
    rewrite (H i record Hi) in Hc. done.
  - intros H i record Hi.
    destruct (is_cancelled _) eqn:E; [| done].
    assert (Ht : times_out env self records) by by exists i, record.
    apply times_out_gather in Ht. congruence.
Qed.

Lemma process_batch_timed_out env self (records : list DataRecord) :
  times_out env self records ->
  process_batch env self records
  = {| returned := [];
       records_after := task_record <$> gather env self records;
       self_after := self |}.
Proof.
  intros H. apply times_out_gather in H.
  unfold process_batch. by rewrite H.
Qed.

Lemma process_batch_finished env self (records : list DataRecord) :
  finishes_before_deadline env self records ->
  process_batch env self records
  = {| returned := omap returned_record (gather env self records);
       records_after := final_record <$> gather env self records;
       self_after :=
         add_counts self
           (count (fun o => negb (is_raised o)) (gather env self records))
           (count is_raised (gather env self records)) |}.
Proof.
  intros H. apply finishes_gather in H.
  unfold process_batch. rewrite H.
  apply (handle_results_spec (gather env self records) [] [] self).
Qed.

(** C1: a batch that does not finish before the deadline returns the empty
    list, whatever the other tasks of the batch did. *)
Theorem process_batch_timeout_returns_empty (env : nat -> TaskEnv)
    (self : DataProcessor) (records : list DataRecord) :
  times_out env self records ->
  returned (process_batch env self records) = [].
Proof. intros H. by rewrite process_batch_timed_out. Qed.

(** C10: a batch that does not finish before the deadline leaves the
    processor, and so [processed] and [failed], as they were before the
    call. *)
Theorem process_batch_timeout_keeps_stats (env : nat -> TaskEnv)
    (self : DataProcessor) (records : list DataRecord) :
  times_out env self records ->
  self_after (process_batch env self records) = self
  /\ processed (_stats (self_after (process_batch env self records)))
     = processed (_stats self)
  /\ failed (_stats (self_after (process_batch env self records)))
     = failed (_stats self).
Proof. intros H. by rewrite process_batch_timed_out. Qed.

Lemma process_batch_timeout_returns_empty_witness :
  let env := fun i : nat =>
    {| sleeps_before_deadline := match i with O => 4%nat | _ => 1%nat end;
       now_iso := fun _ => "2024-01-01T00:00:00" |} in
  let records := [Samples.sample 50 ["source"; "type"];
                  Samples.sample 60 ["source"; "type"]] in
  is_cancelled
    (_process_single_record default_config (env 0%nat)
       (Samples.sample 50 ["source"; "type"])) = false
  /\ returned (process_batch env (new_DataProcessor 0) records) = [].
Proof.
  intros env records. split; [reflexivity |].
  apply process_batch_timeout_returns_empty.
  exists 1%nat, (Samples.sample 60 ["source"; "type"]).
  split; reflexivity.
Defined.

Lemma process_batch_timeout_keeps_stats_witness :
  let env := fun _ : nat =>
    {| sleeps_before_deadline := 3;
       now_iso := fun _ => "2024-01-01T00:00:00" |} in
  let self :=
    {| config := default_config;
       _stats := {| processed := 7; failed := 2; start_time := 0 |} |} in
  let after :=
    self_after (process_batch env self [Samples.sample 5000 [];
                                        Samples.sample 50 ["source"; "type"]]) in
  after = self
  /\ processed (_stats after) = 7%Z /\ failed (_stats after) = 2%Z.
Proof.
  intros env self after.
  apply (process_batch_timeout_keeps_stats env self).
  exists 1%nat, (Samples.sample 50 ["source"; "type"]).
  split; reflexivity.
Defined.

(** *** Batches that finish *)

Lemma count_app (p : TaskOutcome -> bool) (l1 l2 : list TaskOutcome) :
  count p (l1 ++ l2) = (count p l1 + count p l2)%Z.
Proof. unfold count. rewrite List.filter_app, length_app. lia. Qed.

Lemma all_returned (results : list TaskOutcome) :
  Forall (fun o => is_returned o = true) results ->
  omap returned_record results = task_record <$> results
  /\ final_record <$> results = task_record <$> results
  /\ count is_raised results = 0%Z
  /\ count (fun o => negb (is_raised o)) results
     = Z.of_nat (length results).
Proof.
  induction 1 as [| o results Ho _ (IH1 & IH2 & IH3 & IH4)]; [done |].
  destruct o; try done.
  rewrite !count_cons, IH3, IH4. cbn. rewrite IH1, IH2.
  repeat split; try done. lia.
Qed.

(** A list of results with a single raised one, at index [k]. *)
Lemma one_raised (results : list TaskOutcome) (k : nat) (e : Exception)
    (record : DataRecord) :
  results !! k = Some (Raised e record) ->
  (forall i o, i ≠ k -> results !! i = Some o -> is_returned o = true) ->
  omap returned_record results = delete k (final_record <$> results)
  /\ length (omap returned_record results) = (length results - 1)%nat
  /\ count is_raised results = 1%Z
  /\ count (fun o => negb (is_raised o)) results
     = Z.of_nat (length results - 1).
Proof.
  intros Hk Hothers.
  pose proof (lookup_lt_Some _ _ _ Hk) as Hlt.
  assert (H1 : Forall (fun o => is_returned o = true) (take k results)).
  { apply Forall_lookup_2. intros i o Hi.
    apply lookup_take_Some in Hi as [Hi Hik].
    apply (Hothers i); [lia | done]. }
  assert (H2 : Forall (fun o => is_returned o = true) (drop (S k) results)).
  { apply Forall_lookup_2. intros i o Hi. rewrite lookup_drop in Hi.
    apply (Hothers (S k + i)%nat); [lia | done]. }
  destruct (all_returned _ H1) as (A1 & B1 & C1 & D1).
  destruct (all_returned _ H2) as (A2 & B2 & C2 & D2).
  assert (Hlen : length (take k results) = k) by (apply length_take_le; lia).
  rewrite <- (take_drop_middle results k _ Hk).
  rewrite omap_app, fmap_app, !count_app, !count_cons, !length_app.
  cbn [omap list_omap returned_record is_raised negb fmap list_fmap
       final_record length].
  rewrite A1, A2, B1, B2, C1, C2, D1, D2.
  pose proof (delete_middle (task_record <$> take k results)
                (task_record <$> drop (S k) results)
                (set_status record FAILED)) as Hdel.
  rewrite length_fmap, Hlen in Hdel. rewrite Hdel, !length_fmap.
  repeat split; try done; lia.
Qed.

Lemma gather_lookup env self (records : list DataRecord) (i : nat) :
  gather env self records !! i
  = _process_single_record (config self) (env i) <$> records !! i.
Proof. unfold gather. by rewrite list_lookup_imap. Qed.

Lemma gather_length env self (records : list DataRecord) :
  length (gather env self records) = length records.
Proof. unfold gather. by rewrite length_imap. Qed.

(** C2: in a batch that finishes before the deadline and in which the task
    of [records[k]] is the only one that raises, [process_batch] returns
    one record less than it was given, [failed] grows by one (and
    [processed] by the number of the others), the record at [k] ends
    [FAILED] and is not returned: the returned list is the batch without
    it. Every returned record is the result of a pipeline that ran to its
    end, with status [COMPLETED], and every other record of the batch is
    left as its own pipeline returned it. *)
Theorem process_batch_one_failure (env : nat -> TaskEnv)
    (self : DataProcessor) (records : list DataRecord) (k : nat)
    (e : Exception) (record_k failed_k : DataRecord) :
  finishes_before_deadline env self records ->
  records !! k = Some record_k ->
  _process_single_record (config self) (env k) record_k = Raised e failed_k ->
  (forall i record,
      i ≠ k -> records !! i = Some record ->
      is_raised (_process_single_record (config self) (env i) record)
      = false) ->
  let after := process_batch env self records in
  length (returned after) = (length records - 1)%nat
  /\ failed (_stats (self_after after)) = (failed (_stats self) + 1)%Z
  /\ processed (_stats (self_after after))
     = (processed (_stats self) + Z.of_nat (length records - 1))%Z
  /\ records_after after !! k = Some (set_status failed_k FAILED)
  /\ returned after = delete k (records_after after)
  /\ (forall record',
        record' ∈ returned after ->
        status record' = COMPLETED
        /\ exists i record,
             i ≠ k /\ records !! i = Some record
             /\ _process_single_record (config self) (env i) record
                = Returned record')
  /\ (forall i record,
        i ≠ k -> records !! i = Some record ->
        exists record',
          _process_single_record (config self) (env i) record
          = Returned record'
          /\ records_after after !! i = Some record'
          /\ status record' = COMPLETED).
Proof.
  intros Hfin Hk Hraise Hothers after.
  assert (Hret : forall i record,
    i ≠ k -> records !! i = Some record ->
    exists record',
      _process_single_record (config self) (env i) record = Returned record'
      /\ status record' = COMPLETED).
  { intros i record Hik Hi.
    specialize (Hothers i record Hik Hi). specialize (Hfin i record Hi).
    destruct (_process_single_record _ _ _) as [record' | |] eqn:E;
      try done.
    exists record'. split; [done |].
    by apply run_steps_returned_status in E. }
  assert (Hgk : gather env self records !! k = Some (Raised e failed_k)).
  { by rewrite gather_lookup, Hk, <- Hraise. }
  assert (Hgo : forall i o,
    i ≠ k -> gather env self records !! i = Some o -> is_returned o = true).
  { intros i o Hik Hi. rewrite gather_lookup in Hi.
    destruct (records !! i) as [record |] eqn:E; [| done].
    injection Hi as <-.
    destruct (Hret i record Hik E) as (record' & -> & _). done. }
  destruct (one_raised _ _ _ _ Hgk Hgo) as (Hout & Hlen & Hcr & Hco).
  subst after. rewrite (process_batch_finished _ _ _ Hfin).
  cbn [returned records_after self_after add_counts _stats failed processed].
  rewrite gather_length in Hlen, Hco.
  split; [done |]. split; [by rewrite Hcr |]. split; [by rewrite Hco |].
  split; [by rewrite list_lookup_fmap, Hgk |]. split; [done |]. split.
  - intros record' Hin.
    apply list_elem_of_omap in Hin as (o & Hin & Ho).
    apply list_elem_of_lookup in Hin as [i Hi].
    destruct (decide (i = k)) as [-> | Hik].
    { rewrite Hgk in Hi. injection Hi as <-. done. }
    rewrite gather_lookup in Hi.
    destruct (records !! i) as [record |] eqn:E; [| done].
    injection Hi as <-.
    destruct (Hret i record Hik E) as (r' & Hr' & Hst).
    rewrite Hr' in Ho. injection Ho as <-.
    split; [done |]. by exists i, record.
  - intros i record Hik Hi.
    destruct (Hret i record Hik Hi) as (record' & Hr' & Hst).
    exists record'. split; [done |]. split; [| done].
    rewrite list_lookup_fmap, gather_lookup, Hi. simpl. by rewrite Hr'.
Qed.

Lemma process_batch_one_failure_witness :
  let records := [Samples.sample 50 ["source"; "type"];
                  Samples.sample 5000 ["source"; "type"];
                  Samples.sample 500 ["source"; "type"]] in
  let after := process_batch Samples.env_all (new_DataProcessor 0) records in
  length (returned after) = 2%nat
  /\ failed (_stats (self_after after)) = 1%Z
  /\ processed (_stats (self_after after)) = 2%Z
  /\ status <$> records_after after = [COMPLETED; FAILED; COMPLETED]
  /\ returned after = delete 1%nat (records_after after).
Proof.
  intros records after.
  destruct (process_batch_one_failure Samples.env_all (new_DataProcessor 0)
              records 1 (ValueError_out_of_range 5000)
              (Samples.sample 5000 ["source"; "type"])
              (set_status (Samples.sample 5000 ["source"; "type"]) PROCESSING))
    as (Hlen & Hfailed & Hprocessed & _ & Hout & _).
  - intros [| [| [| i]]] record; simpl; intros [= <-]; reflexivity.
  - reflexivity.
  - reflexivity.
  - intros [| [| [| i]]] record Hi; simpl; intros [= <-];
      solve [reflexivity | by destruct Hi].
  - split; [exact Hlen |]. split; [exact Hfailed |].
    split; [exact Hprocessed |]. split; [reflexivity | exact Hout].
Defined.

(** *** Batches of valid records *)

(** The rescaled and rounded value is not above the value it comes from. *)
Lemma round_rescale_le (v : Q) :
  (100 < v)%Q -> (PyNum.round (100 * (1 + (v - 100) / 900)) 2 <= v)%Q.
Proof.
  intros Hv. rewrite round_2_hundredths.
  set (x := (100 * (1 + (v - 100) / 900))%Q).
  pose proof (round_half_even_nearest (x * 100)) as Hn.
  apply Qabs_Qle_condition in Hn as [_ Hn].
  set (m := PyNum.round_half_even (x * 100)) in *.
  assert (Hx : (x == 100 + (v - 100) * (1 # 9))%Q).
  { unfold x, Qdiv. change (/ 900)%Q with (1 # 900)%Q. ring. }
  assert (Hm : (inject_Z m <= v * 100)%Q).
  { destruct (Qlt_le_dec (v * 100) (x * 100 + (1 # 2))) as [Hc | Hc];
      [| lra].
    assert (Hlt : (inject_Z m < inject_Z 10001)%Q).
    { change (inject_Z 10001) with 10001%Q. lra. }
    rewrite <- Zlt_Qlt in Hlt.
    assert (Hle : (inject_Z m <= inject_Z 10000)%Q).
    { rewrite <- Zle_Qle. lia. }
    change (inject_Z 10000) with 10000%Q in Hle. lra. }
  assert (E : (m # 100 == inject_Z m * (1 # 100))%Q).
  { unfold Qeq, Qmult, inject_Z. simpl. lia. }
  rewrite E. lra.
Qed.

Lemma set_status_satisfies_rules rules record s :
  satisfies_rules rules record -> satisfies_rules rules (set_status record s).
Proof. done. Qed.

Lemma normalize_preserves_rules rules (record record' : DataRecord) :
  (min_value rules <= 100)%Q ->
  satisfies_rules rules record ->
  _normalize_value record = Ok record' ->
  satisfies_rules rules record'.
Proof.
  intros Hmin [[Hlo Hhi] Htags]. unfold _normalize_value.
  destruct (Qlt_bool_reflect 100 (value record)) as [H | H];
    intros [= <-]; [| done].
  split; [| done]. split; simpl.
  - apply Qle_trans with (y := 100%Q); [done |].
    apply (round_2_ge 100).
    by apply Qlt_le_weak, rescale_range_lower.
  - apply Qle_trans with (y := value record); [| done].
    by apply round_rescale_le.
Qed.

Lemma categorize_preserves_rules rules (record record' : DataRecord) :
  satisfies_rules rules record ->
  _categorize_value record = Ok record' ->
  satisfies_rules rules record'.
Proof.
  intros [Hr Ht]. unfold _categorize_value. intros [= <-].
  split; [done |]. intros tag Hin. simpl. apply elem_of_app. left. by apply Ht.
Qed.

Lemma enrich_preserves_rules rules now (record record' : DataRecord) :
  satisfies_rules rules record ->
  _enrich_metadata now record = Ok record' ->
  satisfies_rules rules record'.
Proof. intros H. unfold _enrich_metadata. by intros [= <-]. Qed.

Section ValidBatches.
Variable config : Config.
Variable clock : nat -> string.

(** Only [validate] raises: without it the pipeline runs to its end. *)
Lemma run_steps_no_validate (steps : list string) :
  "validate" ∉ steps ->
  forall (budget k : nat) (record : DataRecord),
    sleeps_needed steps <= budget ->
    exists record',
      run_steps (processors config) clock budget k steps record
      = Returned record'.
Proof.
  induction steps as [| name steps IH]; intros Hnv budget k record Hb.
  - by eexists.
  - apply not_elem_of_cons in Hnv as [Hne Hnv]. simpl in *.
    destruct (processors config !! name) as [processor |] eqn:E.
    + assert (Hreg : name ∈ registry)
        by (apply (processors_registry config); by eexists).
      rewrite bool_decide_eq_true_2 in Hb by done.
      destruct budget as [| budget]; [lia |].
      apply processors_lookup_Some
        in E as [[-> _] | [[_ ->] | [[_ ->] | [_ ->]]]];
        [done | apply IH; [done | lia] ..].
    + apply IH; [done |].
      destruct (bool_decide (name ∈ registry)); lia.
Qed.

(** With [min_value <= 100], the rules hold all along the pipeline. *)
Lemma run_steps_valid_low_min (steps : list string) :
  (min_value (validation_rules config) <= 100)%Q ->
  forall (budget k : nat) (record : DataRecord),
    satisfies_rules (validation_rules config) record ->
    sleeps_needed steps <= budget ->
    exists record',
      run_steps (processors config) clock budget k steps record
      = Returned record'.
Proof.
  intros Hmin.
  induction steps as [| name steps IH]; intros budget k record Hok Hb.
  - by eexists.
  - simpl in *.
    destruct (processors config !! name) as [processor |] eqn:E.
    + assert (Hreg : name ∈ registry)
        by (apply (processors_registry config); by eexists).
      rewrite bool_decide_eq_true_2 in Hb by done.
      destruct budget as [| budget]; [lia |].
      apply processors_lookup_Some
        in E as [[_ ->] | [[_ ->] | [[_ ->] | [_ ->]]]].
      * rewrite validate_record_ok by done. apply IH; [done | lia].
      * apply IH; [| lia].
        by eapply normalize_preserves_rules.
      * apply IH; [| lia]. by eapply categorize_preserves_rules.
      * apply IH; [| lia]. by eapply enrich_preserves_rules.
    + apply IH; [done |].
      destruct (bool_decide (name ∈ registry)); lia.
Qed.

(** With every [validate] before the first [normalize], each
    [validate] sees the value the record came with. *)
Lemma run_steps_valid_ordered (steps : list string) :
  validate_before_normalize steps ->
  forall (budget k : nat) (record : DataRecord),
    satisfies_rules (validation_rules config) record ->
    sleeps_needed steps <= budget ->
    exists record',
      run_steps (processors config) clock budget k steps record
      = Returned record'.
Proof.
  induction steps as [| name steps IH];
    intros Hord budget k record Hok Hb.
  - by eexists.
  - destruct Hord as [Hnorm Hord]. simpl in *.
    destruct (processors config !! name) as [processor |] eqn:E.
    + assert (Hreg : name ∈ registry)
        by (apply (processors_registry config); by eexists).
      rewrite bool_decide_eq_true_2 in Hb by done.
      destruct budget as [| budget]; [lia |].
      apply processors_lookup_Some
        in E as [[_ ->] | [[-> ->] | [[_ ->] | [_ ->]]]].
      * rewrite validate_record_ok by done. apply IH; [done .. | lia].
      * apply run_steps_no_validate; [by apply Hnorm | lia].
      * apply IH; [done | | lia]. by eapply categorize_preserves_rules.
      * apply IH; [done | | lia]. by eapply enrich_preserves_rules.
    + apply IH; [done .. |].
      destruct (bool_decide (name ∈ registry)); lia.
Qed.

End ValidBatches.

Lemma process_single_record_valid (config : Config) (env : TaskEnv)
    (record : DataRecord) :
  (min_value (validation_rules config) <= 100)%Q
  \/ validate_before_normalize (processing_steps config) ->
  satisfies_rules (validation_rules config) record ->
  sleeps_needed (processing_steps config) <= sleeps_before_deadline env ->
  exists record',
    _process_single_record config env record = Returned record'.
Proof.
  intros [Hmin | Hord] Hok Hb; unfold _process_single_record.
  - by apply run_steps_valid_low_min.
  - by apply run_steps_valid_ordered.
Qed.

(** C3, as the code has it: when [min_value <= 100] or no [validate] step
    follows a [normalize] step (the default configuration has both), a
    batch of [N] records that all satisfy the validation rules, every task
    of which has the time for all its steps before the deadline, gives
    back [N] records, all [COMPLETED]; [processed] grows by [N] and
    [failed] by 0. *)
Theorem process_batch_all_valid (env : nat -> TaskEnv) (self : DataProcessor)
    (records : list DataRecord) :
  (min_value (validation_rules (config self)) <= 100)%Q
  \/ validate_before_normalize (processing_steps (config self)) ->
  (forall record,
      record ∈ records ->
      satisfies_rules (validation_rules (config self)) record) ->
  (forall i,
      i < length records ->
      sleeps_needed (processing_steps (config self))
      <= sleeps_before_deadline (env i)) ->
  let after := process_batch env self records in
  length (returned after) = length records
  /\ processed (_stats (self_after after))
     = (processed (_stats self) + Z.of_nat (length records))%Z
  /\ failed (_stats (self_after after)) = (failed (_stats self) + 0)%Z
  /\ returned after = records_after after
  /\ Forall (fun record => status record = COMPLETED) (returned after).
Proof.
  intros Hcfg Hvalid Htime after.
  assert (Hall : Forall (fun o => is_returned o = true)
                        (gather env self records)).
  { apply Forall_lookup_2. intros i o Hi. rewrite gather_lookup in Hi.
    destruct (records !! i) as [record |] eqn:E; [| done].
    injection Hi as <-.
    destruct (process_single_record_valid (config self) (env i) record)
      as [record' ->]; try done.
    - apply Hvalid. by eapply list_elem_of_lookup_2.
    - apply Htime. by eapply lookup_lt_Some. }
  assert (Hfin : finishes_before_deadline env self records).
  { intros i record Hi. rewrite Forall_lookup in Hall.
    specialize (Hall i (_process_single_record (config self) (env i) record)).
    rewrite gather_lookup, Hi in Hall. specialize (Hall eq_refl).
    by destruct (_process_single_record _ _ _). }
  destruct (all_returned _ Hall) as (Hout & Hrec & Hcr & Hco).
  subst after. rewrite (process_batch_finished _ _ _ Hfin).
  cbn [returned records_after self_after add_counts _stats failed processed].
  rewrite Hout, Hrec, Hcr, Hco, length_fmap, gather_length.
  repeat split; try done.
  apply Forall_fmap, Forall_lookup_2. intros i o Hi. simpl.
  rewrite gather_lookup in Hi.
  destruct (records !! i) as [record |] eqn:E; [| done].
  injection Hi as <-. rewrite Forall_lookup in Hall.
  specialize (Hall i (_process_single_record (config self) (env i) record)).
  rewrite gather_lookup, E in Hall. specialize (Hall eq_refl).
  destruct (_process_single_record _ _ _) as [record' | |] eqn:Hr; try done.
  by apply run_steps_returned_status in Hr.
Qed.

Lemma process_batch_all_valid_witness :
  let records := [Samples.sample 50 ["source"; "type"];
                  Samples.sample 500 ["type"; "source"; "extra"]] in
  let after := process_batch Samples.env_all (new_DataProcessor 0) records in
  length (returned after) = 2%nat
  /\ processed (_stats (self_after after)) = 2%Z
  /\ failed (_stats (self_after after)) = 0%Z.
Proof.
  intros records after.
  destruct (process_batch_all_valid Samples.env_all (new_DataProcessor 0)
              records) as (Hlen & Hprocessed & Hfailed & _).
  - left. discriminate.
  - intros record Hin. unfold records in Hin.
    rewrite !elem_of_cons in Hin.
    destruct Hin as [-> | [-> | Hin]]; [| | by apply elem_of_nil in Hin];
      (split; [split; discriminate |]);
      intros tag Ht; simpl in Ht; rewrite !elem_of_cons in Ht;
      destruct Ht as [-> | [-> | Ht]];
      solve [compute_done | by apply elem_of_nil in Ht].
  - intros i _. simpl. lia.
  - split; [exact Hlen |]. split; [exact Hprocessed | exact Hfailed].
Defined.

(** The same in binary64: the [float] 500.0 is rescaled to a number
    strictly between 144.4375 and 144.44482421875, which [round(x, 2)]
    takes to 144.44, below a [min_value] of 150. *)
Example rescale_500_binary64 :
  Binary64.between 144.4375 (Binary64.rescale 500) 144.44482421875 = true.
Proof. vm_compute. reflexivity. Qed.

(** C3 as stated fails: with the steps [normalize, validate] and
    [min_value = 150], a record of value 500 satisfies the validation rules
    when it enters the batch, is normalized to 144.44 and then refused by
    [validate]; the batch of this one record returns no record. *)
Lemma process_batch_all_valid_counterexample :
  let config :=
    {| batch_size := 100; timeout := 30;
       validation_rules :=
         {| min_value := 150; max_value := 1000; required_tags := [] |};
       processing_steps := ["normalize"; "validate"] |} in
  let self :=
    {| config := config;
       _stats := {| processed := 0; failed := 0; start_time := 0 |} |} in
  let records := [Samples.sample 500 []] in
  let after := process_batch Samples.env_all self records in
  Forall (satisfies_rules (validation_rules config)) records
  /\ sleeps_needed (processing_steps config)
     <= sleeps_before_deadline (Samples.env_all 0)
  /\ finishes_before_deadline Samples.env_all self records
  /\ returned after = []
  /\ length (returned after) ≠ length records
  /\ processed (_stats (self_after after)) = 0%Z
  /\ failed (_stats (self_after after)) = 1%Z.
Proof.
  simpl. split.
  { constructor; [| constructor]. split; [split; discriminate |].
    intros tag Ht. by apply elem_of_nil in Ht. }
  split; [simpl; lia |]. split.
  { intros [| i] record; simpl; intros [= <-]. reflexivity. }
  by vm_compute.
Qed.

(** ** Statistics *)

Lemma max_1_ge (x : Q) : (1 <= PyNum.max x 1)%Q.
Proof.
  unfold PyNum.max. destruct (Qlt_bool_reflect x 1) as [H | H]; [lra |].
  by apply Qnot_lt_le.
Qed.

Lemma max_1_floor (x : Q) : (x < 1)%Q -> PyNum.max x 1 = 1%Q.
Proof.
  intros H. unfold PyNum.max. apply Qlt_bool_iff in H. by rewrite H.
Qed.

Lemma max_1_id (x : Q) : (1 <= x)%Q -> PyNum.max x 1 = x.
Proof.
  intros H. unfold PyNum.max. apply Qlt_bool_false_iff in H. by rewrite H.
Qed.

Lemma div_ok (a b : Q) : (1 <= b)%Q -> PyNum.div a b = Ok (a / b)%Q.
Proof.
  intros H. unfold PyNum.div.
  destruct (Qeq_bool b 0) eqn:E; [| done].
  apply Qeq_bool_iff in E. lra.
Qed.

(** C8: [get_statistics] never raises, whatever the counters and the
    clock. Both divisors are at least 1, and each is 1 when the quantity
    it comes from is below 1, so both rates are true quotients. *)
Theorem get_statistics_never_raises (now : Q) (self : DataProcessor) :
  let runtime := (now - start_time (_stats self))%Q in
  let total := (processed (_stats self) + failed (_stats self))%Z in
  exists s,
    get_statistics now self = Ok s
    /\ stats s = _stats self
    /\ runtime_seconds s = runtime
    /\ records_per_second s
       = (inject_Z (processed (_stats self))
          / records_per_second_denominator runtime)%Q
    /\ success_rate s
       = (inject_Z (processed (_stats self))
          / success_rate_denominator (_stats self))%Q
    /\ (1 <= records_per_second_denominator runtime)%Q
    /\ ((runtime < 1)%Q -> records_per_second_denominator runtime = 1%Q)
    /\ ((1 <= runtime)%Q -> records_per_second_denominator runtime = runtime)
    /\ (1 <= success_rate_denominator (_stats self))%Q
    /\ ((total < 1)%Z -> success_rate_denominator (_stats self) = 1%Q)
    /\ ((1 <= total)%Z ->
        success_rate_denominator (_stats self) = inject_Z total)
    /\ (records_per_second s * records_per_second_denominator runtime
        == inject_Z (processed (_stats self)))%Q
    /\ (success_rate s * success_rate_denominator (_stats self)
        == inject_Z (processed (_stats self)))%Q.
Proof.
  intros runtime total. unfold get_statistics.
  fold runtime.
  pose proof (max_1_ge runtime) as H1.
  pose proof (max_1_ge (inject_Z total)) as H2.
  fold (records_per_second_denominator runtime) in H1.
  change (PyNum.max (inject_Z total) 1)
    with (success_rate_denominator (_stats self)) in H2.
  rewrite !div_ok by done. eexists. split; [reflexivity |]. simpl.
  repeat split; try done.
  - apply max_1_floor.
  - apply max_1_id.
  - intros H. apply max_1_floor.
    change 1%Q with (inject_Z 1). by rewrite <- Zlt_Qlt.
  - intros H. apply max_1_id.
    change 1%Q with (inject_Z 1). by rewrite <- Zle_Qle.
  - field. lra.
  - field. lra.
Qed.

(** Right after construction both rates are 0 / 1. *)
Example get_statistics_fresh :
  get_statistics 0 (new_DataProcessor 0)
  = Ok {| stats := {| processed := 0; failed := 0; start_time := 0 |};
          runtime_seconds := 0 - 0;
          records_per_second := 0 / 1;
          success_rate := 0 / 1 |}.
Proof. reflexivity. Qed.

(** * Further properties of the code *)

(** ** The normalize step *)

(** A result of [round_half_even] is less than one half away from its
    argument, or it is even. *)
Lemma round_half_even_tie (x : Q) :
  (Qabs (inject_Z (PyNum.round_half_even x) - x) < 1 # 2)%Q
  \/ Z.even (PyNum.round_half_even x) = true.
Proof.
  destruct x as [a b]. unfold PyNum.round_half_even, Qfloor. simpl Qnum.
  change (QDen (a # b)) with (Z.pos b).
  pose proof (Z.div_mod a (Z.pos b) ltac:(done)) as Hdm.
  pose proof (Z.mod_pos_bound a (Z.pos b) ltac:(done)) as Hb.
  assert (Hc : forall k : Z,
    (- (Z.pos b) < 2 * Z.pos b * k - 2 * a < Z.pos b)%Z ->
    (Qabs (inject_Z k - (a # b)) < 1 # 2)%Q).
  { intros k Hk. apply Qabs_Qlt_condition.
    unfold Qlt, Qminus, Qplus, Qopp, inject_Z. simpl.
    rewrite <- ?Pos2Z.opp_pos. lia. }
  destruct (Z.compare_spec (2 * (a mod Z.pos b)) (Z.pos b)) as [E | E | E].
  - right. destruct (Z.even (a / Z.pos b)) eqn:Ev; [done |].
    rewrite Z.even_add, Ev. done.
  - left. apply Hc. lia.
  - left. apply Hc. lia.
Qed.

Lemma round_half_even_mono (x y : Q) :
  (x <= y)%Q -> (PyNum.round_half_even x <= PyNum.round_half_even y)%Z.
Proof.
  intros Hxy.
  pose proof (round_half_even_nearest x) as Hx.
  pose proof (round_half_even_nearest y) as Hy.
  apply Qabs_Qle_condition in Hx as [_ Hx].
  apply Qabs_Qle_condition in Hy as [Hy _].
  set (n := PyNum.round_half_even x) in *.
  set (m := PyNum.round_half_even y) in *.
  destruct (Z.le_gt_cases n m) as [| Hgt]; [done | exfalso].
  assert (Hnm : (inject_Z n <= inject_Z (m + 1))%Q).
  { rewrite inject_Z_plus. change (inject_Z 1) with 1%Q. lra. }
  rewrite <- Zle_Qle in Hnm.
  assert (n = (m + 1)%Z) as Hn by lia.
  assert (Hn' : (inject_Z n == inject_Z m + 1)%Q).
  { rewrite Hn, inject_Z_plus. reflexivity. }
  destruct (round_half_even_tie x) as [Tx | Ex];
    [fold n in Tx; apply Qabs_Qlt_condition in Tx; lra |].
  destruct (round_half_even_tie y) as [Ty | Ey];
    [fold m in Ty; apply Qabs_Qlt_condition in Ty; lra |].
  fold n in Ex. fold m in Ey.
  rewrite Hn, Z.even_add, Ey in Ex. done.
Qed.

Lemma round_2_mono (x y : Q) :
  (x <= y)%Q -> (PyNum.round x 2 <= PyNum.round y 2)%Q.
Proof.
  intros H. rewrite !round_2_hundredths.
  assert (H' : (x * 100 <= y * 100)%Q) by lra.
  apply round_half_even_mono in H'. unfold Qle. simpl. lia.
Qed.

(** X3: [_normalize_value] never increases a value, keeps a value above
    100 at 100 or more, and keeps a non-negative value non-negative. *)
Theorem normalize_value_bounds (record record' : DataRecord) :
  _normalize_value record = Ok record' ->
  (value record' <= value record)%Q
  /\ ((100 < value record)%Q -> (100 <= value record')%Q)
  /\ ((0 <= value record)%Q -> (0 <= value record')%Q).
Proof.
  unfold _normalize_value.
  destruct (Qlt_bool_reflect 100 (value record)) as [H | H];
    intros [= <-]; simpl.
  - assert (Hlo : (100 <= PyNum.round
                      (100 * (1 + (value record - 100) / 900)) 2)%Q).
    { apply (round_2_ge 100). by apply Qlt_le_weak, rescale_range_lower. }
    split; [by apply round_rescale_le |]. split; [done |].
    intros _. lra.
  - split; [apply Qle_refl |]. split; [done | done].
Qed.

Lemma normalize_value_bounds_witness :
  (14444 # 100 <= 500)%Q /\ (100 <= 14444 # 100)%Q.
Proof.
  destruct (normalize_value_bounds
              (Samples.sample 500 [])
              {| id := "record_0001"; timestamp := 0; value := 14444 # 100;
                 metadata := <["normalized" := PyBool true]> ∅;
                 status := PENDING; tags := [] |}) as (H1 & H2 & _).
  - reflexivity.
  - split; [exact H1 | apply H2; reflexivity].
Defined.

(** X4: [_normalize_value] keeps the order of values: a record with the
    smaller value before the step has the smaller (or the same) value
    after it. *)
Theorem normalize_value_monotone (r1 r2 r1' r2' : DataRecord) :
  (value r1 <= value r2)%Q ->
  _normalize_value r1 = Ok r1' ->
  _normalize_value r2 = Ok r2' ->
  (value r1' <= value r2')%Q.
Proof.
  intros Hle. unfold _normalize_value.
  destruct (Qlt_bool_reflect 100 (value r1)) as [H1 | H1];
    destruct (Qlt_bool_reflect 100 (value r2)) as [H2 | H2];
    intros [= <-] [= <-]; simpl.
  - apply round_2_mono. unfold Qdiv. change (/ 900)%Q with (1 # 900)%Q. lra.
  - apply Qnot_lt_le in H2. lra.
  - apply Qnot_lt_le in H1.
    apply Qle_trans with (y := 100%Q); [done |].
    apply (round_2_ge 100). by apply Qlt_le_weak, rescale_range_lower.
  - done.
Qed.

Lemma normalize_value_monotone_witness :
  (14444 # 100 <= 20000 # 100)%Q.
Proof.
  apply (normalize_value_monotone
           (Samples.sample 500 []) (Samples.sample 1000 [])
           {| id := "record_0001"; timestamp := 0; value := 14444 # 100;
              metadata := <["normalized" := PyBool true]> ∅;
              status := PENDING; tags := [] |}
           {| id := "record_0001"; timestamp := 0; value := 20000 # 100;
              metadata := <["normalized" := PyBool true]> ∅;
              status := PENDING; tags := [] |}).
  - discriminate.
  - reflexivity.
  - reflexivity.
Defined.

(** ** Normalize, then categorize *)

Lemma categorize_value_category (record record' : DataRecord) :
  _categorize_value record = Ok record' ->
  metadata record' !! "category" = Some (PyStr (category_of (value record)))
  /\ tags record'
     = (tags record ++ ["category:" +:+ category_of (value record)])%list
  /\ value record' = value record.
Proof.
  unfold _categorize_value. intros [= <-]. simpl.
  split; [apply lookup_insert_eq | done].
Qed.

Lemma category_of_high (v : Q) : (70 <= v)%Q -> category_of v = "high".
Proof.
  intros H. unfold category_of.
  destruct (Qlt_bool_reflect v 30); [lra |].
  destruct (Qlt_bool_reflect v 70); [lra | done].
Qed.

Lemma normalize_keeps_category (record record' : DataRecord) :
  _normalize_value record = Ok record' ->
  category_of (value record') = category_of (value record)
  /\ tags record' = tags record.
Proof.
  unfold _normalize_value.
  destruct (Qlt_bool_reflect 100 (value record)) as [H | H];
    intros [= <-]; simpl; [| done].
  split; [| done]. rewrite !category_of_high; [done | lra |].
  apply Qle_trans with (y := 100%Q); [lra |].
  apply (round_2_ge 100). by apply Qlt_le_weak, rescale_range_lower.
Qed.

(** X5: normalizing a record does not change its category: the category
    and the tags [_categorize_value] gives the normalized record are those
    it gives the record as it was before. *)
Theorem categorize_after_normalize (record normalized c1 c2 : DataRecord) :
  _normalize_value record = Ok normalized ->
  _categorize_value record = Ok c1 ->
  _categorize_value normalized = Ok c2 ->
  metadata c2 !! "category" = metadata c1 !! "category"
  /\ tags c2 = tags c1.
Proof.
  intros Hn H1 H2.
  apply normalize_keeps_category in Hn as [Hc Ht].
  apply categorize_value_category in H1 as (M1 & T1 & _).
  apply categorize_value_category in H2 as (M2 & T2 & _).
  by rewrite M1, M2, T1, T2, Hc, Ht.
Qed.

Lemma categorize_after_normalize_witness :
  let record := Samples.sample 500 ["source"] in
  let normalized :=
    {| id := "record_0001"; timestamp := 0; value := 14444 # 100;
       metadata := <["normalized" := PyBool true]> ∅;
       status := PENDING; tags := ["source"] |} in
  let c1 :=
    {| id := "record_0001"; timestamp := 0; value := 500;
       metadata := <["category" := PyStr "high"]> ∅;
       status := PENDING; tags := ["source"; "category:high"] |} in
  let c2 :=
    {| id := "record_0001"; timestamp := 0; value := 14444 # 100;
       metadata := <["category" := PyStr "high"]>
                     (<["normalized" := PyBool true]> ∅);
       status := PENDING; tags := ["source"; "category:high"] |} in
  metadata c2 !! "category" = metadata c1 !! "category"
  /\ tags c2 = tags c1.
Proof.
  intros record normalized c1 c2.
  apply (categorize_after_normalize record normalized c1 c2); reflexivity.
Defined.

(** ** Invariants of the pipeline *)

Lemma processor_frame (config : Config) (name now : string)
    (processor : string -> DataRecord -> result DataRecord)
    (record record' : DataRecord) :
  processors config !! name = Some processor ->
  processor now record = Ok record' ->
  id record' = id record /\ timestamp record' = timestamp record
  /\ status record' = status record
  /\ tags record `prefix_of` tags record'
  /\ ((0 <= value record)%Q -> (0 <= value record')%Q).
Proof.
  intros Hp.
  apply processors_lookup_Some
    in Hp as [[_ ->] | [[_ ->] | [[_ ->] | [_ ->]]]].
  - intros H. by apply validate_record_inv in H as [-> _].
  - unfold _normalize_value.
    destruct (Qlt_bool_reflect 100 (value record)) as [H | H];
      intros [= <-]; simpl; [| done].
    repeat split; try done. intros _.
    apply Qle_trans with (y := 100%Q); [done |].
    apply (round_2_ge 100). by apply Qlt_le_weak, rescale_range_lower.
  - unfold _categorize_value. intros [= <-]. simpl.
    repeat split; try done. by apply prefix_app_r.
  - unfold _enrich_metadata. by intros [= <-].
Qed.

Lemma processor_raise (config : Config) (name now : string)
    (processor : string -> DataRecord -> result DataRecord)
    (record : DataRecord) (e : Exception) :
  processors config !! name = Some processor ->
  processor now record = Raise e ->
  name = "validate" /\ _validate_record config record = Raise e.
Proof.
  intros Hp.
  by apply processors_lookup_Some
    in Hp as [[-> ->] | [[_ ->] | [[_ ->] | [_ ->]]]].
Qed.

Lemma validate_record_raise_inv (config : Config) (record : DataRecord)
    (e : Exception) :
  _validate_record config record = Raise e ->
  (e = ValueError_out_of_range (value record)
   /\ ~ in_range (validation_rules config) record)
  \/ (e = ValueError_missing_tags
            (list_to_set (required_tags (validation_rules config))
             ∖ list_to_set (tags record))
      /\ in_range (validation_rules config) record
      /\ ~ has_required_tags (validation_rules config) record).
Proof.
  unfold _validate_record.
  rewrite <- in_range_bool, <- has_required_tags_bool.
  destruct (Qle_bool _ _ && Qle_bool _ _); simpl.
  - destruct (forallb _ _); simpl; [done |].
    intros [= <-]. right. by repeat split.
  - intros [= <-]. left. by split.
Qed.

Section PipelineInvariants.
Variable config : Config.
Variable clock : nat -> string.

Lemma run_steps_frame (steps : list string) :
  forall (budget k : nat) (record : DataRecord),
    let o := run_steps (processors config) clock budget k steps record in
    id (task_record o) = id record
    /\ timestamp (task_record o) = timestamp record
    /\ tags record `prefix_of` tags (task_record o)
    /\ ((0 <= value record)%Q -> (0 <= value (task_record o))%Q)
    /\ status (task_record o)
       = (if is_returned o then COMPLETED else status record).
Proof.
  induction steps as [| name steps IH]; intros budget k record; simpl.
  - done.
  - destruct (processors config !! name) as [processor |] eqn:E;
      [| apply IH].
    destruct budget as [| budget]; [done |].
    destruct (processor (clock k) record) as [record' |] eqn:Ep; [| done].
    destruct (processor_frame _ _ _ _ _ _ E Ep) as (Hi & Ht & Hs & Hp & Hv).
    destruct (IH budget (S k) record') as (Ii & It & Ip & Iv & Is).
    rewrite Ii, It, Is, Hi, Ht, Hs. repeat split; try done.
    + by etrans.
    + intros H. by apply Iv, Hv.
Qed.

Lemma run_steps_raised (steps : list string) :
  forall (budget k : nat) (record failed_record : DataRecord)
         (e : Exception),
    run_steps (processors config) clock budget k steps record
    = Raised e failed_record ->
    "validate" ∈ steps /\ _validate_record config failed_record = Raise e.
Proof.
  induction steps as [| name steps IH];
    intros budget k record failed_record e; simpl; [done |].
  destruct (processors config !! name) as [processor |] eqn:E.
  - destruct budget as [| budget]; [done |].
    destruct (processor (clock k) record) as [record' |] eqn:Ep.
    + intros H. apply IH in H as [Hin Hv]. split; [| done].
      by apply list_elem_of_further.
    + intros [= <- <-].
      apply (processor_raise _ _ _ _ _ _ E) in Ep as [-> Hv].
      split; [apply list_elem_of_here | done].
  - intros H. apply IH in H as [Hin Hv]. split; [| done].
    by apply list_elem_of_further.
Qed.

Lemma run_steps_enough_time (steps : list string) :
  forall (budget k : nat) (record : DataRecord),
    sleeps_needed steps <= budget ->
    is_cancelled (run_steps (processors config) clock budget k steps record)
    = false.
Proof.
  induction steps as [| name steps IH]; intros budget k record Hb; simpl;
    [done |].
  simpl in Hb.
  destruct (processors config !! name) as [processor |] eqn:E.
  - assert (Hreg : name ∈ registry)
      by (apply (processors_registry config); by eexists).
    rewrite bool_decide_eq_true_2 in Hb by done.
    destruct budget as [| budget]; [lia |].
    destruct (processor (clock k) record); [| done].
    apply IH. lia.
  - apply IH. destruct (bool_decide (name ∈ registry)); lia.
Qed.

End PipelineInvariants.

(** X6: whatever the configuration, the environment and the way it ends,
    the pipeline leaves the id and the timestamp of a record as they were,
    only appends to its tags, keeps a non-negative value non-negative, and
    leaves it [COMPLETED] when it returns it and [PROCESSING] otherwise
    (when a step raised or the deadline fired). *)
Theorem process_single_record_invariants (config : Config) (env : TaskEnv)
    (record : DataRecord) :
  let o := _process_single_record config env record in
  id (task_record o) = id record
  /\ timestamp (task_record o) = timestamp record
  /\ tags record `prefix_of` tags (task_record o)
  /\ ((0 <= value record)%Q -> (0 <= value (task_record o))%Q)
  /\ status (task_record o)
     = (if is_returned o then COMPLETED else PROCESSING).
Proof.
  unfold _process_single_record.
  apply (run_steps_frame config (now_iso env) (processing_steps config)
           (sleeps_before_deadline env) 0 (set_status record PROCESSING)).
Qed.

(** X7: only the validate step makes a pipeline raise. When the pipeline
    of a record raises, ["validate"] is among the configured steps, and the
    exception tells what the record, as it was then, fails: its value is
    out of range, or its value is in range and a required tag is missing
    (the range is checked first). *)
Theorem process_single_record_raises (config : Config) (env : TaskEnv)
    (record failed_record : DataRecord) (e : Exception) :
  _process_single_record config env record = Raised e failed_record ->
  "validate" ∈ processing_steps config
  /\ ((e = ValueError_out_of_range (value failed_record)
       /\ ~ in_range (validation_rules config) failed_record)
      \/ (e = ValueError_missing_tags
                (list_to_set (required_tags (validation_rules config))
                 ∖ list_to_set (tags failed_record))
          /\ in_range (validation_rules config) failed_record
          /\ ~ has_required_tags (validation_rules config) failed_record)).
Proof.
  unfold _process_single_record. intros H.
  apply run_steps_raised in H as [Hin Hv]. split; [done |].
  by apply validate_record_raise_inv.
Qed.

Lemma process_single_record_raises_witness :
  let config := default_config in
  let failed_record :=
    set_status (Samples.sample 5000 ["source"; "type"]) PROCESSING in
  let e := ValueError_out_of_range 5000 in
  "validate" ∈ processing_steps config
  /\ ((e = ValueError_out_of_range (value failed_record)
       /\ ~ in_range (validation_rules config) failed_record)
      \/ (e = ValueError_missing_tags
                (list_to_set (required_tags (validation_rules config))
                 ∖ list_to_set (tags failed_record))
          /\ in_range (validation_rules config) failed_record
          /\ ~ has_required_tags (validation_rules config) failed_record)).
Proof.
  intros config failed_record e.
  apply (process_single_record_raises config (Samples.env_all 0)
           (Samples.sample 5000 ["source"; "type"]) failed_record e).
  reflexivity.
Defined.

(** ** Accounting of a batch *)

Lemma process_single_record_status (config : Config) (env : TaskEnv)
    (record : DataRecord) :
  status (task_record (_process_single_record config env record))
  = (if is_returned (_process_single_record config env record)
     then COMPLETED else PROCESSING).
Proof.
  unfold _process_single_record.
  apply (run_steps_frame config (now_iso env) (processing_steps config)
           (sleeps_before_deadline env) 0 (set_status record PROCESSING)).
Qed.

Lemma process_single_record_enough_time (config : Config) (env : TaskEnv)
    (record : DataRecord) :
  sleeps_needed (processing_steps config) <= sleeps_before_deadline env ->
  is_cancelled (_process_single_record config env record) = false.
Proof. intros H. unfold _process_single_record. by apply run_steps_enough_time. Qed.

Lemma count_bounds (p : TaskOutcome -> bool) (results : list TaskOutcome) :
  (0 <= count p results <= Z.of_nat (length results))%Z.
Proof.
  unfold count. pose proof (List.filter_length_le p results). lia.
Qed.

Lemma count_partition (results : list TaskOutcome) :
  (count (fun o => negb (is_raised o)) results + count is_raised results
   = Z.of_nat (length results))%Z.
Proof.
  induction results as [| o results IH]; [done |].
  rewrite !count_cons. simpl length. destruct (is_raised o); simpl; lia.
Qed.

Lemma length_returned (results : list TaskOutcome) :
  Z.of_nat (length (omap returned_record results))
  = count (fun o => negb (is_raised o)) results.
Proof.
  unfold returned_record.
  induction results as [| o results IH]; [done |].
  rewrite count_cons. cbn [omap list_omap].
  destruct (is_raised o); simpl in *; lia.
Qed.

(** X8: whatever a call of [process_batch] does, it leaves the
    configuration and [start_time] alone, never decreases a counter, and
    adds at most the size of the batch to [processed] and [failed]
    together. It keeps as many records in the batch as it was given and
    returns at most that many. *)
Theorem process_batch_counters (env : nat -> TaskEnv) (self : DataProcessor)
    (records : list DataRecord) :
  let after := process_batch env self records in
  let p := processed (_stats self) in
  let p' := processed (_stats (self_after after)) in
  let f := failed (_stats self) in
  let f' := failed (_stats (self_after after)) in
  config (self_after after) = config self
  /\ start_time (_stats (self_after after)) = start_time (_stats self)
  /\ (p <= p')%Z /\ (f <= f')%Z
  /\ (p' + f' <= p + f + Z.of_nat (length records))%Z
  /\ length (records_after after) = length records
  /\ length (returned after) <= length records.
Proof.
  pose proof (gather_length env self records) as Hlen.
  destruct (existsb is_cancelled (gather env self records)) eqn:E.
  - apply times_out_gather in E. rewrite (process_batch_timed_out _ _ _ E).
    simpl. rewrite length_fmap, Hlen. repeat split; lia.
  - apply finishes_gather in E. rewrite (process_batch_finished _ _ _ E).
    cbn [returned records_after self_after add_counts _stats failed
         processed start_time config].
    pose proof (count_partition (gather env self records)) as Hp.
    pose proof (count_bounds is_raised (gather env self records)) as H1.
    pose proof (count_bounds (fun o => negb (is_raised o))
                  (gather env self records)) as H2.
    pose proof (length_returned (gather env self records)) as Hr.
    rewrite length_fmap, Hlen in *. repeat split; try done; lia.
Qed.

(** X9: in a batch that finishes before the deadline every record is
    accounted for once: [processed] grows by the number of records
    returned and [failed] by the number of the others. *)
Theorem process_batch_accounting (env : nat -> TaskEnv) (self : DataProcessor)
    (records : list DataRecord) :
  finishes_before_deadline env self records ->
  let after := process_batch env self records in
  processed (_stats (self_after after))
  = (processed (_stats self) + Z.of_nat (length (returned after)))%Z
  /\ failed (_stats (self_after after))
     = (failed (_stats self)
        + Z.of_nat (length records - length (returned after)))%Z.
Proof.
  intros Hfin after. subst after.
  rewrite (process_batch_finished _ _ _ Hfin).
  cbn [returned records_after self_after add_counts _stats failed processed].
  pose proof (count_partition (gather env self records)) as Hp.
  pose proof (count_bounds is_raised (gather env self records)) as H1.
  pose proof (length_returned (gather env self records)) as Hr.
  rewrite gather_length in *. split; lia.
Qed.

Lemma process_batch_accounting_witness :
  let records := [Samples.sample 5000 ["source"; "type"];
                  Samples.sample 50 ["source"; "type"];
                  Samples.sample 70 ["source"]] in
  let self :=
    {| config := default_config;
       _stats := {| processed := 10; failed := 3; start_time := 0 |} |} in
  let after := process_batch Samples.env_all self records in
  processed (_stats (self_after after))
  = (10 + Z.of_nat (length (returned after)))%Z
  /\ failed (_stats (self_after after))
     = (3 + Z.of_nat (3 - length (returned after)))%Z.
Proof.
  intros records self after.
  apply (process_batch_accounting Samples.env_all self records).
  intros [| [| [| i]]] record; simpl; intros [= <-]; reflexivity.
Defined.

(** X10: a batch all of whose tasks have the time for their steps (one
    sleep for each configured step of the registry) finishes before the
    deadline, whatever its records are. *)
Theorem process_batch_enough_time (env : nat -> TaskEnv)
    (self : DataProcessor) (records : list DataRecord) :
  (forall i,
      i < length records ->
      sleeps_needed (processing_steps (config self))
      <= sleeps_before_deadline (env i)) ->
  finishes_before_deadline env self records
  /\ ~ times_out env self records.
Proof.
  intros Htime.
  assert (Hfin : finishes_before_deadline env self records).
  { intros i record Hi. apply process_single_record_enough_time.
    apply Htime. by eapply lookup_lt_Some. }
  split; [done |].
  intros (i & record & Hi & Hc). by rewrite (Hfin i record Hi) in Hc.
Qed.

Lemma process_batch_enough_time_witness :
  let records := [Samples.sample 5000 []; Samples.sample 50 ["source"]] in
  finishes_before_deadline Samples.env_all (new_DataProcessor 0) records
  /\ ~ times_out Samples.env_all (new_DataProcessor 0) records.
Proof.
  intros records.
  apply (process_batch_enough_time Samples.env_all (new_DataProcessor 0)
           records).
  intros i _. simpl. lia.
Defined.

(** ** Statuses after a batch *)

Lemma gather_elem env self (records : list DataRecord) (o : TaskOutcome) :
  o ∈ gather env self records ->
  exists i record,
    records !! i = Some record
    /\ o = _process_single_record (config self) (env i) record.
Proof.
  intros Hin. apply list_elem_of_lookup in Hin as [i Hi].
  rewrite gather_lookup in Hi.
  destruct (records !! i) as [record |] eqn:E; [| done].
  injection Hi as <-. by exists i, record.
Qed.

Lemma gather_status env self (records : list DataRecord) :
  Forall (fun o => status (task_record o)
                   = (if is_returned o then COMPLETED else PROCESSING))
         (gather env self records).
Proof.
  apply Forall_forall. intros o Hin.
  apply gather_elem in Hin as (i & record & _ & ->).
  apply process_single_record_status.
Qed.

Lemma returned_filter_completed (results : list TaskOutcome) :
  Forall (fun o => is_cancelled o = false) results ->
  Forall (fun o => status (task_record o)
                   = (if is_returned o then COMPLETED else PROCESSING))
         results ->
  omap returned_record results
  = filter (fun record => status record = COMPLETED)
           (final_record <$> results)
  /\ Forall (fun record => status record = COMPLETED
                           \/ status record = FAILED)
            (final_record <$> results).
Proof.
  induction 1 as [| o results Ho _ IH]; [done |].
  intros Hst. apply Forall_cons in Hst as [Hs Hst].
  destruct (IH Hst) as [IH1 IH2].
  rewrite fmap_cons. cbn [omap list_omap].
  fold (omap returned_record results).
  destruct o as [record | e record | record]; try done; simpl in Hs.
  - unfold returned_record at 1. simpl.
    rewrite filter_cons_True by done. rewrite IH1.
    split; [done |]. constructor; [by left | done].
  - unfold returned_record at 1. simpl.
    rewrite filter_cons_False by done.
    split; [done |]. constructor; [by right | done].
Qed.

(** X11: after a batch that finishes before the deadline every record of
    the batch is [COMPLETED] or [FAILED], and the returned list is the
    batch restricted to its [COMPLETED] records, in the order of the
    batch. *)
Theorem process_batch_finished_statuses (env : nat -> TaskEnv)
    (self : DataProcessor) (records : list DataRecord) :
  finishes_before_deadline env self records ->
  let after := process_batch env self records in
  returned after
  = filter (fun record => status record = COMPLETED) (records_after after)
  /\ Forall (fun record => status record = COMPLETED
                           \/ status record = FAILED)
            (records_after after).
Proof.
  intros Hfin after. subst after.
  rewrite (process_batch_finished _ _ _ Hfin).
  cbn [returned records_after].
  apply returned_filter_completed; [| apply gather_status].
  apply Forall_forall. intros o Hin.
  apply gather_elem in Hin as (i & record & Hi & ->). by apply Hfin.
Qed.

Lemma process_batch_finished_statuses_witness :
  let records := [Samples.sample 50 ["source"; "type"];
                  Samples.sample 5000 ["source"; "type"];
                  Samples.sample 60 ["source"; "type"]] in
  let after := process_batch Samples.env_all (new_DataProcessor 0) records in
  returned after
  = filter (fun record => status record = COMPLETED) (records_after after)
  /\ Forall (fun record => status record = COMPLETED
                           \/ status record = FAILED)
            (records_after after).
Proof.
  intros records after.
  apply (process_batch_finished_statuses Samples.env_all
           (new_DataProcessor 0) records).
  intros [| [| [| i]]] record; simpl; intros [= <-]; reflexivity.
Defined.

(** X12: a batch that does not finish before the deadline marks no record
    [FAILED]: every record of the batch is left [COMPLETED] (its task had
    returned) or [PROCESSING], also the records whose task had raised
    before the deadline. *)
Theorem process_batch_timeout_statuses (env : nat -> TaskEnv)
    (self : DataProcessor) (records : list DataRecord) :
  times_out env self records ->
  let after := process_batch env self records in
  Forall (fun record => status record = COMPLETED
                        \/ status record = PROCESSING)
         (records_after after)
  /\ (forall i record e failed_record,
        records !! i = Some record ->
        _process_single_record (config self) (env i) record
        = Raised e failed_record ->
        records_after after !! i = Some failed_record
        /\ status failed_record = PROCESSING).
Proof.
  intros Hto after. subst after.
  rewrite (process_batch_timed_out _ _ _ Hto). cbn [records_after].
  split.
  - apply Forall_fmap.
    eapply Forall_impl; [apply gather_status |].
    intros o Ho. simpl. rewrite Ho. destruct (is_returned o); tauto.
  - intros i record e failed_record Hi Hr.
    rewrite list_lookup_fmap, gather_lookup, Hi. simpl. rewrite Hr.
    split; [done |].
    pose proof (process_single_record_status (config self) (env i) record)
      as Hs.
    by rewrite Hr in Hs.
Qed.

Lemma process_batch_timeout_statuses_witness :
  let env := fun _ : nat =>
    {| sleeps_before_deadline := 2;
       now_iso := fun _ => "2024-01-01T00:00:00" |} in
  let records := [Samples.sample 5000 ["source"; "type"];
                  Samples.sample 50 ["source"; "type"]] in
  let after := process_batch env (new_DataProcessor 0) records in
  status <$> records_after after = [PROCESSING; PROCESSING]
  /\ Forall (fun record => status record = COMPLETED
                           \/ status record = PROCESSING)
            (records_after after).
Proof.
  intros env records after. split; [reflexivity |].
  apply (process_batch_timeout_statuses env (new_DataProcessor 0) records).
  exists 1%nat, (Samples.sample 50 ["source"; "type"]).
  split; reflexivity.
Defined.

(** X13: a configuration whose steps do not include ["validate"] never
    fails a record: with the time for their steps, all the records of a
    batch are returned, whatever they are, and [failed] stays as it
    was. *)
Theorem process_batch_without_validate (env : nat -> TaskEnv)
    (self : DataProcessor) (records : list DataRecord) :
  "validate" ∉ processing_steps (config self) ->
  (forall i,
      i < length records ->
      sleeps_needed (processing_steps (config self))
      <= sleeps_before_deadline (env i)) ->
  let after := process_batch env self records in
  returned after = records_after after
  /\ length (returned after) = length records
  /\ failed (_stats (self_after after)) = failed (_stats self)
  /\ processed (_stats (self_after after))
     = (processed (_stats self) + Z.of_nat (length records))%Z.
Proof.
  intros Hnv Htime after.
  assert (Hall : Forall (fun o => is_returned o = true)
                        (gather env self records)).
  { apply Forall_forall. intros o Hin.
    apply gather_elem in Hin as (i & record & Hi & ->).
    unfold _process_single_record.
    destruct (run_steps_no_validate (config self) (now_iso (env i))
                (processing_steps (config self)) Hnv
                (sleeps_before_deadline (env i)) 0
                (set_status record PROCESSING)) as [record' ->]; [| done].
    apply Htime. by eapply lookup_lt_Some. }
  assert (Hfin : finishes_before_deadline env self records).
  { intros i record Hi. rewrite Forall_lookup in Hall.
    specialize (Hall i (_process_single_record (config self) (env i) record)).
    rewrite gather_lookup, Hi in Hall. specialize (Hall eq_refl).
    by destruct (_process_single_record _ _ _). }
  destruct (all_returned _ Hall) as (Hout & Hrec & Hcr & Hco).
  subst after. rewrite (process_batch_finished _ _ _ Hfin).
  cbn [returned records_after self_after add_counts _stats failed processed].
  rewrite Hout, Hrec, Hcr, Hco, length_fmap, gather_length.
  repeat split; try done. lia.
Qed.

Lemma process_batch_without_validate_witness :
  let self :=
    {| config := with_processing_steps default_config
                   ["normalize"; "categorize"; "enrich"];
       _stats := {| processed := 0; failed := 0; start_time := 0 |} |} in
  let records := [Samples.sample 5000 []; Samples.sample 50 []] in
  let after := process_batch Samples.env_all self records in
  returned after = records_after after
  /\ length (returned after) = 2%nat
  /\ failed (_stats (self_after after)) = 0%Z
  /\ processed (_stats (self_after after)) = (0 + 2)%Z.
Proof.
  intros self records after.
  apply (process_batch_without_validate Samples.env_all self records).
  - simpl. rewrite !not_elem_of_cons.
    repeat split; [discriminate .. | apply not_elem_of_nil].
  - intros i _. simpl. lia.
Defined.

(** ** Rates *)

Lemma success_rate_denominator_ge (s : Stats) :
  (0 <= processed s)%Z -> (0 <= failed s)%Z ->
  (inject_Z (processed s) <= success_rate_denominator s)%Q.
Proof.
  intros Hp Hf. unfold success_rate_denominator, PyNum.max.
  destruct (Qlt_bool_reflect (inject_Z (processed s + failed s)) 1)
    as [H | H].
  - change 1%Q with (inject_Z 1) in H. rewrite <- Zlt_Qlt in H.
    assert (processed s = 0%Z) as -> by lia. done.
  - rewrite <- Zle_Qle. lia.
Qed.

(** X14: with counters that are not negative (as [process_batch] keeps
    them), the success rate lies between 0 and 1 and the number of records
    per second between 0 and [processed]; the success rate is 1 when
    records were processed and none failed, and both rates are 0 when no
    record was processed. *)
Theorem get_statistics_rates (now : Q) (self : DataProcessor) :
  (0 <= processed (_stats self))%Z ->
  (0 <= failed (_stats self))%Z ->
  exists s,
    get_statistics now self = Ok s
    /\ (0 <= success_rate s)%Q /\ (success_rate s <= 1)%Q
    /\ (0 <= records_per_second s)%Q
    /\ (records_per_second s <= inject_Z (processed (_stats self)))%Q
    /\ ((0 < processed (_stats self))%Z -> failed (_stats self) = 0%Z ->
        (success_rate s == 1)%Q)
    /\ (processed (_stats self) = 0%Z ->
        (success_rate s == 0)%Q /\ (records_per_second s == 0)%Q).
Proof.
  intros Hp Hf. unfold get_statistics.
  set (runtime := (now - start_time (_stats self))%Q).
  pose proof (max_1_ge runtime) as H1.
  pose proof (max_1_ge (inject_Z (processed (_stats self)
                                    + failed (_stats self)))) as H2.
  fold (records_per_second_denominator runtime) in H1.
  change (PyNum.max _ 1) with (success_rate_denominator (_stats self)) in H2.
  pose proof (success_rate_denominator_ge (_stats self) Hp Hf) as H3.
  rewrite !div_ok by done. eexists. split; [reflexivity |]. simpl.
  assert (Hp' : (0 <= inject_Z (processed (_stats self)))%Q).
  { change 0%Q with (inject_Z 0). by rewrite <- Zle_Qle. }
  set (d1 := records_per_second_denominator runtime) in *.
  set (d2 := success_rate_denominator (_stats self)) in *.
  set (p := inject_Z (processed (_stats self))) in *.
  split; [apply Qle_shift_div_l; lra |].
  split; [apply Qle_shift_div_r; lra |].
  split; [apply Qle_shift_div_l; lra |].
  split.
  { apply Qle_shift_div_r; [lra |]. nra. }
  split.
  - intros Hpos Hzero. subst d2 p.
    unfold success_rate_denominator. rewrite Hzero, Z.add_0_r.
    rewrite max_1_id.
    + field. change 0%Q with (inject_Z 0). rewrite inject_Z_injective. lia.
    + change 1%Q with (inject_Z 1). rewrite <- Zle_Qle. lia.
  - intros Hzero. subst p. rewrite Hzero.
    change (inject_Z 0) with 0%Q. split; field; lra.
Qed.

Lemma get_statistics_rates_witness :
  exists s,
    get_statistics 10
      {| config := default_config;
         _stats := {| processed := 3; failed := 1; start_time := 0 |} |}
    = Ok s
    /\ (0 <= success_rate s)%Q /\ (success_rate s <= 1)%Q.
Proof.
  destruct (get_statistics_rates 10
              {| config := default_config;
                 _stats := {| processed := 3; failed := 1;
                              start_time := 0 |} |})
    as (s & Hs & H0 & H1 & _); [simpl; lia | simpl; lia |].
  exists s. split; [exact Hs |]. split; [exact H0 | exact H1].
Defined.

(** ** The default order of the steps *)

Lemma processors_validate (config : Config) :
  processors config !! "validate" = Some (fun _ => _validate_record config).
Proof. reflexivity. Qed.

Lemma processors_normalize (config : Config) :
  processors config !! "normalize" = Some (fun _ => _normalize_value).
Proof. reflexivity. Qed.

Lemma processors_categorize (config : Config) :
  processors config !! "categorize" = Some (fun _ => _categorize_value).
Proof. reflexivity. Qed.

Lemma processors_enrich (config : Config) :
  processors config !! "enrich" = Some _enrich_metadata.
Proof. reflexivity. Qed.

(** X15: with the steps in the default order (validate, normalize,
    categorize, enrich) and the time for four steps, a record that
    satisfies the validation rules is returned [COMPLETED]; its value is
    kept when it is at most 100 and otherwise brought down to a value that
    is still at least 100; it gets the category of the value it came with
    (as metadata and as a last tag), a quality score of at most 100, the
    pipeline version and the time read at the fourth step, and its other
    metadata keys stay as they were. A record that does not satisfy the
    rules makes its pipeline raise and is left as it was, but for its
    status [PROCESSING]. *)
Theorem process_single_record_default_order (config : Config)
    (env : TaskEnv) (record : DataRecord) :
  processing_steps config = ["validate"; "normalize"; "categorize"; "enrich"] ->
  4 <= sleeps_before_deadline env ->
  (satisfies_rules (validation_rules config) record ->
   exists record',
     _process_single_record config env record = Returned record'
     /\ status record' = COMPLETED
     /\ ((value record <= 100)%Q -> value record' = value record)
     /\ ((100 < value record)%Q ->
         (100 <= value record')%Q /\ (value record' <= value record)%Q)
     /\ tags record'
        = (tags record ++ ["category:" +:+ category_of (value record)])%list
     /\ metadata record' !! "normalized" = Some (PyBool true)
     /\ metadata record' !! "category"
        = Some (PyStr (category_of (value record)))
     /\ metadata record' !! "processing_time" = Some (PyStr (now_iso env 3))
     /\ metadata record' !! "pipeline_version" = Some (PyStr "2.1.0")
     /\ (exists score,
           metadata record' !! "quality_score" = Some (PyNumber score)
           /\ (score <= 100)%Q)
     /\ (forall key,
           key ∉ ["normalized"; "category"; "processing_time";
                  "pipeline_version"; "quality_score"] ->
           metadata record' !! key = metadata record !! key))
  /\ (~ satisfies_rules (validation_rules config) record ->
      exists e,
        _process_single_record config env record
        = Raised e (set_status record PROCESSING)).
Proof.
  intros Hsteps Htime. unfold _process_single_record. rewrite Hsteps.
  destruct (sleeps_before_deadline env) as [| [| [| [| budget]]]]; try lia.
  cbn [run_steps].
  rewrite processors_validate, processors_normalize, processors_categorize,
    processors_enrich.
  split.
  - intros Hok.
    rewrite validate_record_ok by done.
    destruct (_normalize_value (set_status record PROCESSING))
      as [normalized |] eqn:En; [| done].
    destruct (_categorize_value normalized) as [categorized |] eqn:Ec;
      [| done].
    destruct (normalize_keeps_category _ _ En) as [Hcat Htags].
    destruct (categorize_value_category _ _ Ec) as (Hmc & Htc & Hvc).
    unfold _normalize_value in En. injection En as <-.
    unfold _categorize_value in Ec. injection Ec as <-.
    eexists. split; [reflexivity |]. simpl in *.
    split; [done |]. split.
    { intros Hle. apply Qlt_bool_false_iff in Hle. by rewrite Hle. }
    split.
    { intros Hlt. apply Qlt_bool_iff in Hlt as Hb. rewrite Hb. simpl. split.
      - apply (round_2_ge 100). by apply Qlt_le_weak, rescale_range_lower.
      - by apply round_rescale_le. }
    split.
    { rewrite <- Hcat. by destruct (PyNum.Qlt_bool 100 (value record)). }
    split.
    { rewrite !lookup_insert_ne by done.
      destruct (PyNum.Qlt_bool 100 (value record)); apply lookup_insert_eq. }
    split.
    { rewrite !lookup_insert_ne by done. rewrite lookup_insert_eq.
      rewrite <- Hcat. by destruct (PyNum.Qlt_bool 100 (value record)). }
    split; [by rewrite !lookup_insert_ne, lookup_insert_eq by done |].
    split; [by rewrite !lookup_insert_ne, lookup_insert_eq by done |].
    split.
    { eexists. rewrite lookup_insert_eq. split; [reflexivity |].
      unfold PyNum.min.
      match goal with
      | |- context [PyNum.Qlt_bool ?x 100] =>
        destruct (Qlt_bool_reflect x 100) as [H | H]; [lra | apply Qle_refl]
      end. }
    intros key Hk. rewrite !not_elem_of_cons in Hk.
    destruct Hk as (? & ? & ? & ? & ? & _).
    rewrite !lookup_insert_ne by done.
    by destruct (PyNum.Qlt_bool 100 (value record)).
  - intros Hbad.
    destruct (_validate_record config (set_status record PROCESSING))
      as [record' |] eqn:Ev; [| by eexists].
    by apply validate_record_inv in Ev as [_ Hok].
Qed.

Lemma process_single_record_default_order_witness :
  exists record',
    _process_single_record default_config (Samples.env_all 0)
      (Samples.sample 500 ["source"; "type"]) = Returned record'
    /\ status record' = COMPLETED
    /\ tags record' = ["source"; "type"; "category:high"].
Proof.
  destruct (process_single_record_default_order default_config
              (Samples.env_all 0) (Samples.sample 500 ["source"; "type"]))
    as [Hok _]; [reflexivity | simpl; lia |].
  destruct Hok as (record' & Hrun & Hst & _ & _ & Htags & _).
  - split; [split; discriminate |].
    intros tag Ht. simpl in Ht. rewrite !elem_of_cons in Ht.
    destruct Ht as [-> | [-> | Ht]];
      solve [compute_done | by apply elem_of_nil in Ht].
  - exists record'. split; [exact Hrun |]. split; [exact Hst | exact Htags].
Defined.

(** ** The batching loop of the entry point *)

Lemma chunks_concat (size : nat) :
  forall (k : nat) (l : list DataRecord),
    length l <= k * size ->
    concat ((fun j => take size (drop (j * size) l)) <$> seq 0 k) = l.
Proof.
  induction k as [| k IH]; intros l Hlen.
  - simpl in *. destruct l; [done | simpl in Hlen; lia].
  - assert (Hshift :
      (fun j => take size (drop (j * size) l)) <$> seq 1 k
      = (fun j => take size (drop (j * size) (drop size l))) <$> seq 0 k).
    { rewrite <- fmap_S_seq, <- list_fmap_compose.
      apply list_fmap_ext. intros i j _. simpl. by rewrite drop_drop. }
    cbn [seq fmap list_fmap concat]. fold (@fmap list _ nat).
    change (list_fmap nat (list DataRecord)
              (fun j => take size (drop (j * size) l)) (seq 1 k))
      with ((fun j => take size (drop (j * size) l)) <$> seq 1 k).
    rewrite Hshift, IH; [apply take_drop |]. rewrite length_drop. lia.
Qed.

Lemma ceiling_bounds (n size : Z) :
  (0 <= n)%Z -> (0 < size)%Z ->
  let k := ((n + size - 1) / size)%Z in
  (0 <= k)%Z /\ (n <= k * size)%Z /\ (k * size < n + size)%Z.
Proof.
  intros Hn Hs k.
  pose proof (Z.div_mod (n + size - 1) size ltac:(lia)) as Hdm.
  pose proof (Z.mod_pos_bound (n + size - 1) size Hs) as Hb.
  assert (0 <= k)%Z by (apply Z.div_pos; lia).
  subst k. split; [done |]. split; nia.
Qed.

(** X16: the loop of [main] over [range(0, len(records), batch_size)]
    cuts the records into batches that, put end to end, give the records
    back in their order; no batch is empty and none is longer than
    [batch_size]. A negative [batch_size] gives no batch at all, and a
    [batch_size] of 0 makes [range] raise. *)
Theorem batches_of_partition (records : list DataRecord) (batch_size : Z) :
  (batch_size = 0%Z -> batches_of records batch_size = None)
  /\ ((batch_size < 0)%Z -> batches_of records batch_size = Some [])
  /\ ((0 < batch_size)%Z ->
      exists batches,
        batches_of records batch_size = Some batches
        /\ concat batches = records
        /\ Forall (fun batch => 0 < length batch <= Z.to_nat batch_size)
                  batches).
Proof.
  unfold batches_of, range_step. split; [by intros -> |]. split.
  - intros H.
    destruct (Z.eqb_spec batch_size 0) as [-> | _]; [lia |].
    destruct (Z.ltb_spec batch_size 0); [done | lia].
  - intros H.
    destruct (Z.eqb_spec batch_size 0) as [-> | _]; [lia |].
    destruct (Z.ltb_spec batch_size 0); [lia |].
    destruct (ceiling_bounds (Z.of_nat (length records)) batch_size)
      as (Hk0 & Hk1 & Hk2); [lia | done |].
    set (k := ((Z.of_nat (length records) + batch_size - 1) / batch_size)%Z)
      in *.
    eexists. split; [reflexivity |].
    rewrite <- list_fmap_compose. split.
    + apply chunks_concat. nia.
    + apply Forall_fmap, Forall_forall. intros j Hj. simpl.
      apply elem_of_seq in Hj. rewrite length_take, length_drop.
      assert (Z.of_nat j * batch_size < Z.of_nat (length records))%Z by nia.
      assert (Z.of_nat (j * Z.to_nat batch_size)
              = (Z.of_nat j * batch_size)%Z) by lia.
      lia.
Qed.

(** ** The entry point *)

Lemma comprehension_ok {A B : Type} (f : A -> result B) (g : A -> B)
    (l : list A) :
  (forall x, f x = Ok (g x)) -> comprehension (f <$> l) = Ok (g <$> l).
Proof.
  intros H. induction l as [| x l IH]; [done |].
  cbn [fmap list_fmap comprehension]. rewrite H.
  fold (f <$> l). fold (g <$> l). by rewrite IH.
Qed.

(** The record [main] builds for [i]. *)
Lemma sample_record_ok (env : MainEnv) (i : nat) :
  sample_record env i
  = Ok {| id := "record_" +:+ format_04d i;
          timestamp := created_at env i - Z.of_nat i * 3600000000;
          value := inject_Z (Z.abs (py_hash env i) mod 200 + 10);
          metadata := {["source_id" := PyStr ("sensor_" +:+ pretty (i mod 10)%nat)]};
          status := PENDING;
          tags := ["source:api"; "type:sensor"] |}.
Proof.
  unfold sample_record, new_DataRecord.
  destruct (Qlt_bool_reflect
              (inject_Z (Z.abs (py_hash env i) mod 200 + 10)) 0) as [H | _];
    [| done].
  change 0%Q with (inject_Z 0) in H. rewrite <- Zlt_Qlt in H.
  pose proof (Z.mod_pos_bound (Z.abs (py_hash env i)) 200 ltac:(lia)). lia.
Qed.

(** With ["validate"] as first step, the pipeline of a record that lacks a
    required tag does not return it: it raises after its first sleep, if
    the deadline leaves it one. *)
Lemma missing_tag_not_returned (config : Config) (env : TaskEnv)
    (record : DataRecord) (steps : list string) :
  processing_steps config = "validate" :: steps ->
  ~ has_required_tags (validation_rules config) record ->
  is_returned (_process_single_record config env record) = false
  /\ is_cancelled (_process_single_record config env record)
     = bool_decide (sleeps_before_deadline env = 0).
Proof.
  intros Hsteps Hmiss. unfold _process_single_record. rewrite Hsteps.
  cbn [run_steps]. rewrite processors_validate.
  destruct (sleeps_before_deadline env); [done |].
  destruct (_validate_record config (set_status record PROCESSING))
    as [record' |] eqn:E; [| done].
  apply validate_record_inv in E as [_ [_ Ht]]. done.
Qed.

Lemma all_raised (results : list TaskOutcome) :
  Forall (fun o => is_raised o = true) results ->
  omap returned_record results = []
  /\ count is_raised results = Z.of_nat (length results)
  /\ count (fun o => negb (is_raised o)) results = 0%Z.
Proof.
  induction 1 as [| o results Ho _ (I1 & I2 & I3)]; [done |].
  rewrite !count_cons, I2, I3. cbn [omap list_omap].
  fold (omap returned_record results). rewrite I1.
  unfold returned_record. rewrite Ho. simpl length.
  repeat split; try done; lia.
Qed.

(** A batch none of whose tasks returns. *)
Lemma none_returned (env : nat -> TaskEnv) (self : DataProcessor)
    (records : list DataRecord) :
  (forall i record,
      records !! i = Some record ->
      is_returned (_process_single_record (config self) (env i) record)
      = false) ->
  let after := process_batch env self records in
  returned after = []
  /\ processed (_stats (self_after after)) = processed (_stats self)
  /\ (failed (_stats (self_after after)) = failed (_stats self)
      \/ failed (_stats (self_after after))
         = (failed (_stats self) + Z.of_nat (length records))%Z)
  /\ (finishes_before_deadline env self records ->
      failed (_stats (self_after after))
      = (failed (_stats self) + Z.of_nat (length records))%Z)
  /\ (times_out env self records ->
      failed (_stats (self_after after)) = failed (_stats self)).
Proof.
  intros Hnone after. subst after.
  destruct (existsb is_cancelled (gather env self records)) eqn:E.
  - apply times_out_gather in E as Hto.
    rewrite (process_batch_timed_out _ _ _ Hto). simpl.
    split; [done |]. split; [done |]. split; [by left |].
    split; [| done]. intros Hfin. apply finishes_gather in Hfin. congruence.
  - apply finishes_gather in E as Hfin.
    rewrite (process_batch_finished _ _ _ Hfin).
    cbn [returned records_after self_after add_counts _stats failed
         processed].
    assert (Hall : Forall (fun o => is_raised o = true)
                          (gather env self records)).
    { apply Forall_forall. intros o Hin.
      apply gather_elem in Hin as (i & record & Hi & ->).
      specialize (Hnone i record Hi). specialize (Hfin i record Hi).
      by destruct (_process_single_record _ _ _). }
    pose proof (all_raised _ Hall) as Hcounts.
    destruct Hcounts as (H1 & H2 & H3).
    rewrite H1, H2, H3, gather_length, Z.add_0_r.
    split; [done |]. split; [done |]. split; [by right |].
    split; [done |].
    intros Hto. apply times_out_gather in Hto. congruence.
Qed.


(** The fifty records of [main] make one batch of the default size. *)
Lemma batches_of_single (records : list DataRecord) :
  length records = 50 -> batches_of records 100 = Some [records].
Proof.
  intros Hlen. unfold batches_of. rewrite Hlen.
  change (range_step (Z.of_nat 50) 100) with (Some [0]).
  cbn [fmap list_fmap drop]. rewrite take_ge; [done |].
  rewrite length_drop, Hlen. lia.
Qed.

(** X17: [main] never gets a record through its pipeline. The tags it
    gives its fifty records, [source:api] and [type:sensor], are not the
    required tags [source] and [type] of the default configuration, so
    every record is refused by [validate] whatever [hash] gives for its
    value. Whatever the clock and the deadline do, [main] ends with no
    record in [processor.records], [processed] at 0 and both rates at 0;
    [failed] is 50 when every task got through its first sleep before the
    deadline, and 0 when one did not. *)
Theorem main_processes_no_record (env : MainEnv) :
  exists r,
    main env = Some r
    /\ main_records r = []
    /\ processed (_stats (main_processor r)) = 0%Z
    /\ ((forall i, i < 50 -> 1 <= sleeps_before_deadline (task_env env 0 i)) ->
        failed (_stats (main_processor r)) = 50%Z)
    /\ ((exists i, i < 50 /\ sleeps_before_deadline (task_env env 0 i) = 0) ->
        failed (_stats (main_processor r)) = 0%Z)
    /\ (success_rate (main_stats r) == 0)%Q
    /\ (records_per_second (main_stats r) == 0)%Q.
Proof.
  unfold main, sample_records.
  rewrite (comprehension_ok _ _ _ (sample_record_ok env)).
  set (records := _ <$> seq 0 50).
  assert (Hlen : length records = 50)
    by (unfold records; by rewrite length_fmap, length_seq).
  change (batch_size (config (new_DataProcessor (processor_built_at env))))
    with 100%Z.
  rewrite (batches_of_single records Hlen).
  cbn [run_batches app].
  set (self := new_DataProcessor (processor_built_at env)).
  assert (Htask : forall i record,
    records !! i = Some record ->
    is_returned (_process_single_record (config self) (task_env env 0 i)
                   record) = false
    /\ is_cancelled (_process_single_record (config self) (task_env env 0 i)
                       record)
       = bool_decide (sleeps_before_deadline (task_env env 0 i) = 0)).
  { intros i record Hi. unfold records in Hi.
    rewrite list_lookup_fmap in Hi.
    destruct (seq 0 50 !! i) as [j |]; [| done]. injection Hi as <-.
    apply (missing_tag_not_returned _ _ _
             ["normalize"; "categorize"; "enrich"]); [done |].
    intros Ht.
    assert (Hin : "source" ∈ ["source:api"; "type:sensor"])
      by (apply (Ht "source"); apply list_elem_of_here).
    rewrite !elem_of_cons in Hin.
    destruct Hin as [Hin | [Hin | Hin]];
      [discriminate | discriminate | by apply elem_of_nil in Hin]. }
  destruct (none_returned (task_env env 0) self records
              (fun i record Hi => proj1 (Htask i record Hi)))
    as (Hret & Hproc & _ & Hfin & Hto).
  set (after := process_batch (task_env env 0) self records) in *.
  assert (Hp0 : processed (_stats (self_after after)) = 0%Z) by done.
  unfold get_statistics. rewrite !div_ok by apply max_1_ge.
  eexists. split; [reflexivity |].
  cbn [main_records main_processor main_stats success_rate
       records_per_second].
  rewrite Hret, Hp0. rewrite Hlen in Hfin. simpl in Hfin, Hto.
  split; [done |]. split; [done |]. split; [| split].
  - intros Htime. apply Hfin. intros i record Hi.
    destruct (Htask i record Hi) as [_ ->].
    apply bool_decide_eq_false_2.
    assert (i < 50) by (rewrite <- Hlen; by eapply lookup_lt_Some).
    specialize (Htime i ltac:(done)). lia.
  - intros (i & Hi & Hzero). apply Hto.
    destruct (lookup_lt_is_Some_2 records i ltac:(lia)) as [record Hr].
    exists i, record. split; [done |].
    destruct (Htask i record Hr) as [_ ->].
    by apply bool_decide_eq_true_2.
  - change (inject_Z 0) with 0%Q.
    pose proof (max_1_ge (statistics_taken_at env
                          - start_time (_stats (self_after after)))) as H1.
    pose proof (max_1_ge (inject_Z (0 + failed (_stats (self_after after)))))
      as H2.
    unfold records_per_second_denominator, success_rate_denominator.
    rewrite Hp0. split; field; lra.
Qed.

(** * The stored numbers in binary64 *)







#[local] Set Warnings "-inexact-float".

(** The values the code stores at inputs where the rounding of the
    binary64 operations shows. *)
Example normalize_value_binary64_values :
  Binary64.normalize_value 103.375 = 100.37%float
  /\ Binary64.normalize_value 105.625 = 100.63%float
  /\ Binary64.normalize_value 500 = 144.44%float
  /\ Binary64.normalize_value 1000 = 200%float
  /\ Binary64.normalize_value 100.03125 = 100%float
  /\ Binary64.normalize_value 100 = 100%float
  /\ Binary64.normalize_value 42.5 = 42.5%float.
Proof. repeat split; vm_compute; reflexivity. Qed.

(** [round(x, 2)] on ties and near them: 103.375 and 105.625 are exact
    ties and go to the even hundredth, 2.675 is a [float] below the tie. *)
Example round_2_values :
  Binary64.round_2 103.375 = 103.38%float
  /\ Binary64.round_2 105.625 = 105.62%float
  /\ Binary64.round_2 2.675 = 2.67%float
  /\ Binary64.round_2 0.125 = 0.12%float
  /\ Binary64.round_2 infinity = infinity.
Proof. repeat split; vm_compute; reflexivity. Qed.


(** The product is rounded in binary64: for 3 the code stores
    3.5999999999999996, and above 100 / 1.2 it stores 100. *)
Example quality_score_binary64_values :
  Binary64.quality_score 3 = 3.5999999999999996%float
  /\ Binary64.quality_score 90 = 100%float
  /\ Binary64.quality_score infinity = 100%float
  /\ Binary64.quality_score nan = 100%float.
Proof. repeat split; vm_compute; reflexivity. Qed.
